(** * react-minimal-wa-bubble: the WhatsApp widget component

    A shallow embedding of [WhatsAppWidget] (the component's hooks, its event
    handlers, its render output and the deferred focus timer) together with
    the part of the JavaScript run time the component relies on: strings as
    sequences of UTF-16 code units, [encodeURIComponent], [String.prototype.charAt],
    [String.prototype.startsWith] and [setTimeout]. *)

From Stdlib Require Import List NArith ZArith Bool String Ascii Lia.
Import ListNotations.

Set Implicit Arguments.

(** ** JavaScript strings *)

Module JS.

Local Open Scope N_scope.

(** A JavaScript string is a finite sequence of 16-bit code units. *)
Definition CodeUnit := N.
Definition JSString := list CodeUnit.

(** String literals of the source, written as Rocq strings (Latin-1 only). *)
Definition lit (s : string) : JSString :=
  List.map N_of_ascii (list_ascii_of_string s).

(** The only exception the component can meet. *)
Inductive Error := URIError.

(** Completion records: a value, or an abrupt completion (a throw). *)
Inductive Completion (A : Type) :=
| Normal (a : A)
| Throw (e : Error).
Arguments Normal {A} a.
Arguments Throw {A} e.

Definition bind {A B} (c : Completion A) (k : A -> Completion B) : Completion B :=
  match c with
  | Normal a => k a
  | Throw e => Throw e
  end.

Notation "x <- c ;; k" := (bind c (fun x => k))
  (at level 61, c at next level, right associativity).

Definition in_range (lo hi c : N) : bool := (lo <=? c)%N && (c <=? hi)%N.

(** [String.prototype.charAt(pos)]: the code unit at [pos] as a string of
    length one, or the empty string when [pos] is out of range. *)
Definition charAt (s : JSString) (pos : nat) : JSString :=
  match nth_error s pos with
  | Some c => [c]
  | None => []
  end.

(** [String.prototype.startsWith(searchString)] at position 0. *)
Fixpoint startsWith (s search : JSString) : bool :=
  match search, s with
  | [], _ => true
  | _ :: _, [] => false
  | x :: search', c :: s' => (x =? c)%N && startsWith s' search'
  end.

(** [String.prototype.includes(searchString)]. *)
Fixpoint includes (s search : JSString) : bool :=
  startsWith s search ||
  match s with
  | [] => false
  | _ :: s' => includes s' search
  end.

(** [s.split(" ")]. *)
Fixpoint splitSpaces (s : JSString) : list JSString :=
  match s with
  | [] => [[]]
  | c :: s' =>
      if c =? 32 then [] :: splitSpaces s'
      else match splitSpaces s' with
           | w :: ws => (c :: w) :: ws
           | [] => [[c]]
           end
  end.

(** Strict equality of two strings. *)
Fixpoint strictEquals (a b : JSString) : bool :=
  match a, b with
  | [], [] => true
  | x :: a', y :: b' => (x =? y) && strictEquals a' b'
  | _, _ => false
  end.

(** Truthiness of a string value: only the empty string is falsy. *)
Definition truthy (s : JSString) : bool :=
  match s with
  | [] => false
  | _ :: _ => true
  end.

(** *** Surrogates and code points (ECMA-262, CodePointAt) *)

Definition isLeadingSurrogate (c : CodeUnit) : bool := in_range 0xD800 0xDBFF c.
Definition isTrailingSurrogate (c : CodeUnit) : bool := in_range 0xDC00 0xDFFF c.

Definition UTF16SurrogatePairToCodePoint (lead trail : CodeUnit) : N :=
  (lead - 0xD800) * 0x400 + (trail - 0xDC00) + 0x10000.

(** *** UTF-8 *)

Definition utf8 (cp : N) : list N :=
  if (cp <? 0x80)%N then [cp]
  else if (cp <? 0x800)%N then
    [N.lor 0xC0 (N.shiftr cp 6); N.lor 0x80 (N.land cp 0x3F)]
  else if (cp <? 0x10000)%N then
    [N.lor 0xE0 (N.shiftr cp 12);
     N.lor 0x80 (N.land (N.shiftr cp 6) 0x3F);
     N.lor 0x80 (N.land cp 0x3F)]
  else
    [N.lor 0xF0 (N.shiftr cp 18);
     N.lor 0x80 (N.land (N.shiftr cp 12) 0x3F);
     N.lor 0x80 (N.land (N.shiftr cp 6) 0x3F);
     N.lor 0x80 (N.land cp 0x3F)].

(** *** Percent escapes *)

(** The upper-case hexadecimal digit of a value below 16. *)
Definition hexDigit (d : N) : CodeUnit :=
  if (d <? 10)%N then 48 + d else 55 + d.

(** ["%" + hex.padStart(2, "0")] for one octet. *)
Definition percentEscape (octet : N) : JSString :=
  [37; hexDigit (octet / 16); hexDigit (octet mod 16)]%N.

Definition escapeOctets (octets : list N) : JSString :=
  flat_map percentEscape octets.

(** *** encodeURIComponent (ECMA-262, Encode with no extra unescaped set) *)

Definition isAsciiWord (c : CodeUnit) : bool :=
  in_range 65 90 c || in_range 97 122 c || in_range 48 57 c || (c =? 95)%N.

(** The marks [-.!~*'()]. *)
Definition isUnescapedMark (c : CodeUnit) : bool :=
  (c =? 45)%N || (c =? 46)%N || (c =? 33)%N || (c =? 126)%N ||
  (c =? 42)%N || (c =? 39)%N || (c =? 40)%N || (c =? 41)%N.

Definition alwaysUnescaped (c : CodeUnit) : bool :=
  isAsciiWord c || isUnescapedMark c.

Fixpoint Encode (s : JSString) : Completion JSString :=
  match s with
  | [] => Normal []
  | c :: rest =>
      if alwaysUnescaped c then
        r <- Encode rest ;; Normal (c :: r)
      else if negb (isLeadingSurrogate c || isTrailingSurrogate c) then
        r <- Encode rest ;; Normal (escapeOctets (utf8 c) ++ r)
      else if isTrailingSurrogate c then Throw URIError
      else
        match rest with
        | [] => Throw URIError
        | d :: rest' =>
            if isTrailingSurrogate d then
              r <- Encode rest' ;;
              Normal (escapeOctets (utf8 (UTF16SurrogatePairToCodePoint c d)) ++ r)
            else Throw URIError
        end
  end.

Definition encodeURIComponent (s : JSString) : Completion JSString := Encode s.

(** Characters a URI component may contain after encoding: the unescaped
    set and the percent sign. *)
Definition uriSafe (c : CodeUnit) : bool := alwaysUnescaped c || (c =? 37).

(** Every element is a 16-bit code unit. *)
Definition isCodeUnitString (s : JSString) : bool :=
  forallb (fun c => c <? 0x10000) s.

(** Number of occurrences of a code unit. *)
Definition occurrences (c : CodeUnit) (s : JSString) : nat :=
  List.length (filter (N.eqb c) s).

(** *** Well-formed UTF-16 (ECMA-262, IsStringWellFormedUnicode) *)

Fixpoint isWellFormed (s : JSString) : bool :=
  match s with
  | [] => true
  | c :: rest =>
      if isLeadingSurrogate c then
        match rest with
        | d :: rest' => isTrailingSurrogate d && isWellFormed rest'
        | [] => false
        end
      else negb (isTrailingSurrogate c) && isWellFormed rest
  end.

(** *** Reading an encoded component back

    The receiving side of the link undoes the escapes and the UTF-8
    encoding ([decodeURIComponent]); it is modelled to show that the
    encoding loses nothing. *)

(** The value of a hexadecimal digit. *)
Definition unhex (c : CodeUnit) : option N :=
  if in_range 48 57 c then Some (c - 48)
  else if in_range 65 70 c then Some (c - 55)
  else if in_range 97 102 c then Some (c - 87)
  else None.

(** A decoded item: a literal code unit or the octet of a [%XX] escape. *)
Inductive Token :=
| Lit (c : CodeUnit)
| Octet (o : N).

Fixpoint tokens (s : JSString) : option (list Token) :=
  match s with
  | [] => Some []
  | c :: rest =>
      if c =? 37 then
        match rest with
        | h :: l :: rest' =>
            match unhex h, unhex l, tokens rest' with
            | Some a, Some b, Some ts => Some (Octet (16 * a + b) :: ts)
            | _, _, _ => None
            end
        | _ => None
        end
      else
        match tokens rest with
        | Some ts => Some (Lit c :: ts)
        | None => None
        end
  end.

(** The code units of a code point (ECMA-262, CodePointToUTF16CodeUnits). *)
Definition codeUnitsOf (cp : N) : JSString :=
  if cp <? 0x10000 then [cp]
  else [0xD800 + (cp - 0x10000) / 0x400; 0xDC00 + (cp - 0x10000) mod 0x400].

Definition continuation (o : N) : bool := in_range 0x80 0xBF o.

Fixpoint decodeTokens (ts : list Token) : option JSString :=
  match ts with
  | [] => Some []
  | Lit c :: ts1 =>
      match decodeTokens ts1 with
      | Some r => Some (c :: r)
      | None => None
      end
  | Octet b0 :: ts1 =>
      if b0 <? 0x80 then
        match decodeTokens ts1 with
        | Some r => Some (b0 :: r)
        | None => None
        end
      else if b0 <? 0xC0 then None
      else if b0 <? 0xE0 then
        match ts1 with
        | Octet b1 :: ts2 =>
            if continuation b1 then
              match decodeTokens ts2 with
              | Some r => Some (codeUnitsOf ((b0 - 0xC0) * 0x40 + (b1 - 0x80)) ++ r)
              | None => None
              end
            else None
        | _ => None
        end
      else if b0 <? 0xF0 then
        match ts1 with
        | Octet b1 :: Octet b2 :: ts3 =>
            if continuation b1 && continuation b2 then
              match decodeTokens ts3 with
              | Some r =>
                  Some (codeUnitsOf ((b0 - 0xE0) * 0x1000 + (b1 - 0x80) * 0x40
                                     + (b2 - 0x80)) ++ r)
              | None => None
              end
            else None
        | _ => None
        end
      else
        match ts1 with
        | Octet b1 :: Octet b2 :: Octet b3 :: ts4 =>
            if continuation b1 && continuation b2 && continuation b3 then
              match decodeTokens ts4 with
              | Some r =>
                  Some (codeUnitsOf ((b0 - 0xF0) * 0x40000 + (b1 - 0x80) * 0x1000
                                     + (b2 - 0x80) * 0x40 + (b3 - 0x80)) ++ r)
              | None => None
              end
            else None
        | _ => None
        end
  end.

Definition decodeComponent (s : JSString) : option JSString :=
  match tokens s with
  | Some ts => decodeTokens ts
  | None => None
  end.

End JS.

(** ** The component *)

Module Widget.

Import JS.

(** *** Props (lines 6-75) *)

Inductive Position := BottomRight | BottomLeft | TopRight | TopLeft.

(** The string literal each member of the [position] union stands for. *)
Definition positionString (p : Position) : JSString :=
  match p with
  | BottomRight => lit "bottom-right"
  | BottomLeft => lit "bottom-left"
  | TopRight => lit "top-right"
  | TopLeft => lit "top-left"
  end.

(** Optional props are [None] when the caller leaves them out. *)
Record WhatsAppWidgetProps := {
  phoneNumber : JSString;
  defaultMessage : option JSString;
  position : option Position;
  businessName : JSString;
  businessLogo : option JSString;
  primaryColor : option JSString;
  welcomeMessage : option JSString;
  inputPlaceholder : option JSString;
  initiallyOpen : option bool;
  className : option JSString;
  showTimestamp : option bool
}.

(** Default values of the destructuring pattern (lines 63-75). *)
Definition orDefault {A} (d : A) (o : option A) : A :=
  match o with
  | Some a => a
  | None => d
  end.

Definition defaultMessage' (p : WhatsAppWidgetProps) : JSString :=
  orDefault (lit "") (defaultMessage p).
Definition position' (p : WhatsAppWidgetProps) : Position :=
  orDefault BottomRight (position p).
Definition primaryColor' (p : WhatsAppWidgetProps) : JSString :=
  orDefault (lit "#25D366") (primaryColor p).
Definition welcomeMessage' (p : WhatsAppWidgetProps) : JSString :=
  orDefault (lit "Hello! How can I help you today?") (welcomeMessage p).
Definition inputPlaceholder' (p : WhatsAppWidgetProps) : JSString :=
  orDefault (lit "Type a message...") (inputPlaceholder p).
Definition initiallyOpen' (p : WhatsAppWidgetProps) : bool :=
  orDefault false (initiallyOpen p).
Definition className' (p : WhatsAppWidgetProps) : JSString :=
  orDefault (lit "") (className p).
Definition showTimestamp' (p : WhatsAppWidgetProps) : bool :=
  orDefault true (showTimestamp p).

(** *** Hook state (lines 76-78) *)

Record Hooks := {
  isOpen : bool;
  message : JSString;
  mounted : bool
}.

(** The values [useState] is given on the first render. *)
Definition useStateInit (p : WhatsAppWidgetProps) : Hooks :=
  {| isOpen := initiallyOpen' p;
     message := defaultMessage' p;
     mounted := false |}.

Definition setIsOpen (b : bool) (h : Hooks) : Hooks :=
  {| isOpen := b; message := message h; mounted := mounted h |}.

Definition setMessage (v : JSString) (h : Hooks) : Hooks :=
  {| isOpen := isOpen h; message := v; mounted := mounted h |}.

Definition setMounted (b : bool) (h : Hooks) : Hooks :=
  {| isOpen := isOpen h; message := message h; mounted := b |}.

(** *** Event handlers *)

(** Floating button, line 304: [() => setIsOpen(!isOpen)]. *)
Definition toggleOpen (h : Hooks) : Hooks := setIsOpen (negb (isOpen h)) h.

(** Header close button, line 224: [() => setIsOpen(false)]. *)
Definition close (h : Hooks) : Hooks := setIsOpen false h.

(** Textarea, line 275: [(e) => setMessage(e.target.value)]. *)
Definition onChange (value : JSString) (h : Hooks) : Hooks := setMessage value h.

(** What the component does to the outside world. *)
Inductive Effect :=
| WindowOpen (url target : JSString)
| UncaughtError (e : Error)
| TimerCallback
| FocusInput.

(** The URL computed at lines 99-100:
    [`https://wa.me/${phoneNumber}?text=${encodeURIComponent(message)}`]. *)
Definition buildDeepLink (phoneNumber message : JSString) : Completion JSString :=
  encodedMessage <- encodeURIComponent message ;;
  Normal (lit "https://wa.me/" ++ phoneNumber ++ lit "?text=" ++ encodedMessage).

(** Send button, lines 98-101.  The handler calls no state setter: it
    returns the hook state it was given and the [window.open] request, or
    throws before [window.open] is reached. *)
Definition handleWhatsAppClick (p : WhatsAppWidgetProps) (h : Hooks)
  : Hooks * Completion Effect :=
  (h, url <- buildDeepLink (phoneNumber p) (message h) ;;
      Normal (WindowOpen url (lit "_blank"))).

(** *** Render output (lines 96-353) *)

Definition positionClasses (pos : Position) : JSString :=
  match pos with
  | BottomRight => lit "right-4 md:right-8 bottom-4 md:bottom-8"
  | BottomLeft => lit "left-4 md:left-8 bottom-4 md:bottom-8"
  | TopRight => lit "right-4 md:right-8 top-4 md:top-8"
  | TopLeft => lit "left-4 md:left-8 top-4 md:top-8"
  end.

Definition originPoint (pos : Position) : JSString :=
  match pos with
  | BottomRight => lit "bottom right"
  | BottomLeft => lit "bottom left"
  | TopRight => lit "top right"
  | TopLeft => lit "top left"
  end.

(** The fields of [chatContainerVariants] that depend on the props
    (lines 118-145); offsets are in pixels. *)
Record ContainerVariants := {
  hidden_opacity : Z;
  hidden_y : Z;
  hidden_transformOrigin : JSString;
  visible_opacity : Z;
  visible_y : Z;
  exit_opacity : Z;
  exit_y : Z
}.

Definition chatContainerVariants (pos : Position) : ContainerVariants :=
  {| hidden_opacity := 0;
     hidden_y := if startsWith (positionString pos) (lit "top") then (-20)%Z else 20%Z;
     hidden_transformOrigin := originPoint pos;
     visible_opacity := 1;
     visible_y := 0;
     exit_opacity := 0;
     exit_y := if startsWith (positionString pos) (lit "top") then (-15)%Z else 15%Z |}.

(** Header avatar, lines 199-212. *)
Inductive Avatar :=
| AvatarImage (src alt : JSString)
| AvatarInitial (text backgroundColor : JSString).

Definition renderAvatar (p : WhatsAppWidgetProps) : Avatar :=
  match businessLogo p with
  | Some logo =>
      if truthy logo then AvatarImage logo (businessName p)
      else AvatarInitial (charAt (businessName p) 0) (primaryColor' p)
  | None => AvatarInitial (charAt (businessName p) 0) (primaryColor' p)
  end.

(** The expanded panel, lines 178-299. *)
Record Panel := {
  variants : ContainerVariants;
  headerBackground : JSString;
  avatar : Avatar;
  headerName : JSString;
  welcomeText : JSString;
  timestampShown : bool;
  textareaValue : JSString;
  textareaPlaceholder : JSString;
  sendBackground : JSString
}.

(** The root element, lines 175-352. *)
Record Tree := {
  rootClassName : JSString;
  panel : option Panel;
  buttonBackground : JSString;
  buttonAriaLabel : JSString;
  buttonIcon : JSString
}.

Definition renderPanel (p : WhatsAppWidgetProps) (h : Hooks) : Panel :=
  {| variants := chatContainerVariants (position' p);
     headerBackground := primaryColor' p;
     avatar := renderAvatar p;
     headerName := businessName p;
     welcomeText := welcomeMessage' p;
     timestampShown := showTimestamp' p;
     textareaValue := message h;
     textareaPlaceholder := inputPlaceholder' p;
     sendBackground := primaryColor' p |}.

(** The component function after the hooks: [None] is [return null]. *)
Definition render (p : WhatsAppWidgetProps) (h : Hooks) : option Tree :=
  if negb (mounted h) then None
  else Some
    {| rootClassName :=
         lit "fixed z-50 " ++ positionClasses (position' p) ++
         lit " flex flex-col items-end " ++ className' p;
       panel := if isOpen h then Some (renderPanel p h) else None;
       buttonBackground := primaryColor' p;
       buttonAriaLabel :=
         if isOpen h then lit "Close chat" else lit "Open WhatsApp chat";
       buttonIcon := if isOpen h then lit "close" else lit "whatsapp" |}.

(** Whether the rendered output contains the expanded panel. *)
Definition panelRendered (p : WhatsAppWidgetProps) (h : Hooks) : bool :=
  match render p h with
  | Some t => match panel t with Some _ => true | None => false end
  | None => false
  end.

(** *** A component instance inside the host's event loop *)

(** Delay given to [setTimeout] at line 91, in milliseconds. *)
Definition focusDelay : nat := 300.

Record Instance := {
  props : WhatsAppWidgetProps;
  hooks : Hooks;
  inputRef : bool;      (* [inputRef.current] is an element, not [null] *)
  timers : list nat;    (* pending [setTimeout] callbacks, milliseconds left *)
  attached : bool;      (* the instance has not been unmounted *)
  log : list Effect;    (* effects so far, oldest first *)
  exiting : option (WhatsAppWidgetProps * Hooks)
                        (* a panel element that has left the output and is
                           kept on screen for its exit animation, with the
                           props and hooks of the render that made it *)
}.

Definition setProps (p : WhatsAppWidgetProps) (w : Instance) : Instance :=
  {| props := p; hooks := hooks w; inputRef := inputRef w;
     timers := timers w; attached := attached w; log := log w;
     exiting := exiting w |}.

Definition setHooks (h : Hooks) (w : Instance) : Instance :=
  {| props := props w; hooks := h; inputRef := inputRef w;
     timers := timers w; attached := attached w; log := log w;
     exiting := exiting w |}.

Definition setInputRef (b : bool) (w : Instance) : Instance :=
  {| props := props w; hooks := hooks w; inputRef := b;
     timers := timers w; attached := attached w; log := log w;
     exiting := exiting w |}.

Definition setExiting (x : option (WhatsAppWidgetProps * Hooks)) (w : Instance)
  : Instance :=
  {| props := props w; hooks := hooks w; inputRef := inputRef w;
     timers := timers w; attached := attached w; log := log w;
     exiting := x |}.

Definition setTimeout (delay : nat) (w : Instance) : Instance :=
  {| props := props w; hooks := hooks w; inputRef := inputRef w;
     timers := timers w ++ [delay]; attached := attached w; log := log w;
     exiting := exiting w |}.

Definition emit (es : list Effect) (w : Instance) : Instance :=
  {| props := props w; hooks := hooks w; inputRef := inputRef w;
     timers := timers w; attached := attached w; log := log w ++ es;
     exiting := exiting w |}.

(** First render: [useState] initialisers, nothing rendered, no ref. *)
Definition create (p : WhatsAppWidgetProps) : Instance :=
  {| props := p; hooks := useStateInit p; inputRef := false;
     timers := []; attached := true; log := []; exiting := None |}.

(** The effect of lines 87-93.  It returns no cleanup function. *)
Definition focusEffect (w : Instance) : Instance :=
  if isOpen (hooks w) && inputRef w then setTimeout focusDelay w else w.

(** The callback of lines 89-91: [inputRef.current?.focus()]. *)
Definition focusCallback (w : Instance) : list Effect :=
  TimerCallback :: (if inputRef w then [FocusInput] else []).

(** Commit of a re-render.  The textarea's ref is attached as soon as the
    panel is in the output.  When the panel leaves the output,
    [AnimatePresence] (lines 176-301) keeps the element of the previous
    render on screen until its exit animation is over (see
    [ExitAnimationDone]): the ref stays attached, and the element keeps the
    props and the handlers that render gave it.  The effect with dependency
    [[isOpen]] runs when [isOpen] differs from its value at the previous
    render. *)
Definition commit (prev : Hooks) (w : Instance) : Instance :=
  let w' :=
    if panelRendered (props w) (hooks w)
    then setExiting None (setInputRef true w)
    else if panelRendered (props w) prev
         then setExiting (Some (props w, prev)) w
         else w in
  if Bool.eqb (isOpen prev) (isOpen (hooks w')) then w' else focusEffect w'.

(** A state update followed by the re-render it causes. *)
Definition update (f : Hooks -> Hooks) (w : Instance) : Instance :=
  commit (hooks w) (setHooks (f (hooks w)) w).

(** Effects of the first commit: lines 82-84 queue [setMounted(true)],
    lines 87-93 run with the ref still [null]; then the queued update is
    rendered. *)
Definition runMountEffects (w : Instance) : Instance :=
  update (setMounted true) (focusEffect w).

(** The render whose panel element is on screen, if there is one: the
    current render while the panel is in the output, the render kept for
    the exit animation otherwise.  Its props and hooks are what the
    element's attributes and handlers were built from. *)
Definition panelClosure (w : Instance) : option (WhatsAppWidgetProps * Hooks) :=
  if panelRendered (props w) (hooks w) then Some (props w, hooks w)
  else exiting w.

Definition isExiting (w : Instance) : bool :=
  match exiting w with
  | Some _ => true
  | None => false
  end.

Definition panelInDOM (w : Instance) : bool :=
  match panelClosure w with
  | Some _ => true
  | None => false
  end.

(** A click on the send button of the panel element built by render [c].
    The handler asks for no state update, so the hooks stay as they are. *)
Definition send (c : WhatsAppWidgetProps * Hooks) (w : Instance) : Instance :=
  let (_, r) := handleWhatsAppClick (fst c) (snd c) in
  emit [match r with Normal eff => eff | Throw e => UncaughtError e end] w.

(** Time passes: every timer that is due runs its callback. *)
Definition elapse (ms : nat) (w : Instance) : Instance :=
  let due := filter (fun t => Nat.leb t ms) (timers w) in
  let later := filter (fun t => negb (Nat.leb t ms)) (timers w) in
  {| props := props w; hooks := hooks w; inputRef := inputRef w;
     timers := List.map (fun t => (t - ms)%nat) later;
     attached := attached w;
     log := log w ++ flat_map (fun _ => focusCallback w) due;
     exiting := exiting w |}.

(** React detaches refs on unmount; no effect cleanup exists to clear the
    timers. *)
Definition unmount (w : Instance) : Instance :=
  {| props := props w; hooks := hooks w; inputRef := false;
     timers := timers w; attached := false; log := log w;
     exiting := None |}.

Inductive Event :=
| RunMountEffects
| ClickFloatingButton
| ClickClose
| ChangeInput (value : JSString)
| ClickSend
| ReceiveProps (p : WhatsAppWidgetProps)
| ExitAnimationDone
| Elapse (ms : nat)
| Unmount.

(** One event.  Clicks and input reach a handler only when the element
    carrying it is on screen; for the panel that includes the time of its
    exit animation, during which the element still has the handlers of the
    last render that contained it.  [setIsOpen(false)] and
    [setMessage(value)] do not read the state, so for them the age of the
    handler makes no difference; the send handler reads [message] and
    [phoneNumber] from its own render. *)
Definition step (w : Instance) (e : Event) : Instance :=
  match e with
  | Elapse ms => elapse ms w
  | RunMountEffects =>
      if attached w && negb (mounted (hooks w)) then runMountEffects w else w
  | ClickFloatingButton =>
      if attached w && mounted (hooks w) then update toggleOpen w else w
  | ClickClose =>
      if attached w && panelInDOM w then update close w else w
  | ChangeInput value =>
      if attached w && panelInDOM w then update (onChange value) w else w
  | ClickSend =>
      if attached w
      then match panelClosure w with
           | Some c => send c w
           | None => w
           end
      else w
  | ReceiveProps p =>
      if attached w then commit (hooks w) (setProps p w) else w
  | ExitAnimationDone =>
      if attached w && negb (panelRendered (props w) (hooks w))
      then setExiting None (setInputRef false w) else w
  | Unmount => if attached w then unmount w else w
  end.

Definition run (w : Instance) (es : list Event) : Instance :=
  fold_left step es w.

(** *** Observations used by the properties below *)

(** The side of the screen the root element is pinned to, read off the
    utility classes of [positionClasses]. *)
Inductive VerticalAnchor := AnchorTop | AnchorBottom.

Definition verticalAnchor (pos : Position) : VerticalAnchor :=
  if includes (positionClasses pos) (lit " top-4 ") then AnchorTop else AnchorBottom.

(** The [value] attribute of the textarea in a render output, if the
    textarea is there. *)
Definition valueAttribute (p : WhatsAppWidgetProps) (h : Hooks) : option JSString :=
  match render p h with
  | Some t => option_map textareaValue (panel t)
  | None => None
  end.

(** What the textarea on screen shows, if there is one: a controlled field
    shows the [value] attribute of the render its element was built by. *)
Definition displayedValue (w : Instance) : option JSString :=
  if attached w
  then match panelClosure w with
       | Some c => valueAttribute (fst c) (snd c)
       | None => None
       end
  else None.

(** Props with the two [useState] seeds replaced. *)
Definition withSeeds (o : option bool) (m : option JSString)
  (p : WhatsAppWidgetProps) : WhatsAppWidgetProps :=
  {| phoneNumber := phoneNumber p;
     defaultMessage := m;
     position := position p;
     businessName := businessName p;
     businessLogo := businessLogo p;
     primaryColor := primaryColor p;
     welcomeMessage := welcomeMessage p;
     inputPlaceholder := inputPlaceholder p;
     initiallyOpen := o;
     className := className p;
     showTimestamp := showTimestamp p |}.

(** An event with the props it delivers rewritten. *)
Definition mapProps (f : WhatsAppWidgetProps -> WhatsAppWidgetProps) (e : Event) : Event :=
  match e with
  | ReceiveProps p => ReceiveProps (f p)
  | _ => e
  end.

(** Invariants of the event loop: no timer is further away than the focus
    delay, and after unmount the ref is [null]. *)
Definition timersBounded (w : Instance) : Prop :=
  Forall (fun t => t <= focusDelay) (timers w).

Definition refDetached (w : Instance) : Prop :=
  attached w = false -> inputRef w = false.

(** A configuration used to exercise the statements below. *)
Definition demoProps : WhatsAppWidgetProps :=
  {| phoneNumber := lit "15551234567";
     defaultMessage := Some (lit "Hi there!");
     position := Some TopLeft;
     businessName := lit "Acme";
     businessLogo := None;
     primaryColor := None;
     welcomeMessage := None;
     inputPlaceholder := None;
     initiallyOpen := None;
     className := None;
     showTimestamp := None |}.

(** Counting effects in a log. *)
Definition isTimerCallback (e : Effect) : bool :=
  match e with TimerCallback => true | _ => false end.
Definition isFocusInput (e : Effect) : bool :=
  match e with FocusInput => true | _ => false end.

Definition callbackRuns (w : Instance) : nat :=
  List.length (filter isTimerCallback (log w)).
Definition focusCalls (w : Instance) : nat :=
  List.length (filter isFocusInput (log w)).

(** *** Measures of a sequence of events *)

Definition isClickFloatingButton (e : Event) : bool :=
  match e with ClickFloatingButton => true | _ => false end.
Definition isClickClose (e : Event) : bool :=
  match e with ClickClose => true | _ => false end.
Definition isClickSend (e : Event) : bool :=
  match e with ClickSend => true | _ => false end.
Definition isChangeInput (e : Event) : bool :=
  match e with ChangeInput _ => true | _ => false end.

(** How often the floating button, or the send button, is clicked. *)
Definition clicks (es : list Event) : nat :=
  List.length (filter isClickFloatingButton es).
Definition sends (es : list Event) : nat :=
  List.length (filter isClickSend es).

(** Milliseconds that pass during a sequence of events. *)
Definition elapsed (es : list Event) : nat :=
  fold_right (fun e n => match e with Elapse ms => ms + n | _ => n end) 0 es.

(** [n] times open and close again, with no time in between. *)
Definition toggles (n : nat) : list Event :=
  List.concat (repeat [ClickFloatingButton; ClickFloatingButton] n).

Definition isWindowOpen (e : Effect) : bool :=
  match e with WindowOpen _ _ => true | _ => false end.

Definition windowOpens (w : Instance) : nat :=
  List.length (filter isWindowOpen (log w)).

(** The only navigation the component may ask for: a [wa.me] link in a
    new browsing context. *)
Definition opensWhatsApp (e : Effect) : Prop :=
  match e with
  | WindowOpen url target =>
      target = lit "_blank" /\ startsWith url (lit "https://wa.me/") = true
  | _ => True
  end.

(** Until the first commit nothing is rendered, so the ref is [null]. *)
Definition refNullBeforeMount (w : Instance) : Prop :=
  mounted (hooks w) = false -> inputRef w = false.

(** [classList.contains(cls)] for an element whose [className] is
    [classes]. *)
Definition hasClass (classes cls : JSString) : bool :=
  existsb (strictEquals cls) (splitSpaces classes).

(** [s.replace("-", " ")] on a string with one hyphen, code unit by code
    unit. *)
Definition hyphenToSpace (s : JSString) : JSString :=
  List.map (fun c => if (c =? 45)%N then 32%N else c) s.

End Widget.

(** ** Properties of the string primitives *)

Module JSFacts.

Import JS.
Local Open Scope N_scope.

Lemma in_range_spec lo hi c : in_range lo hi c = true <-> lo <= c <= hi.
Proof.
  unfold in_range. rewrite andb_true_iff, !N.leb_le. tauto.
Qed.

Lemma in_range_false lo hi c : in_range lo hi c = false <-> c < lo \/ hi < c.
Proof.
  unfold in_range. rewrite andb_false_iff, !N.leb_gt. tauto.
Qed.

Lemma lit_app a b : lit (a ++ b)%string = lit a ++ lit b.
Proof.
  unfold lit. induction a as [|x a IH]; simpl; [reflexivity|].
  now rewrite IH.
Qed.

(** Code units that are copied verbatim are never surrogates. *)
Lemma unescaped_not_surrogate c :
  alwaysUnescaped c = true ->
  isLeadingSurrogate c = false /\ isTrailingSurrogate c = false.
Proof.
  unfold alwaysUnescaped, isAsciiWord, isUnescapedMark,
    isLeadingSurrogate, isTrailingSurrogate.
  intros H. rewrite !in_range_false.
  repeat (apply orb_true_iff in H; destruct H as [H|H]);
    try apply in_range_spec in H; try apply N.eqb_eq in H; lia.
Qed.

Lemma leading_not_trailing c :
  isLeadingSurrogate c = true -> isTrailingSurrogate c = false.
Proof.
  unfold isLeadingSurrogate, isTrailingSurrogate.
  rewrite in_range_spec, in_range_false. lia.
Qed.

Lemma bind_Normal {A B} (c : Completion A) (k : A -> Completion B) b :
  (x <- c ;; k x) = Normal b -> exists a, c = Normal a /\ k a = Normal b.
Proof.
  destruct c as [a|e]; simpl; [eauto | discriminate].
Qed.

(** Induction following the two ways [Encode] consumes its input. *)
Lemma units_ind2 (P : JSString -> Prop) :
  P [] ->
  (forall c rest, P rest -> (forall d rest', rest = d :: rest' -> P rest') -> P (c :: rest)) ->
  forall s, P s.
Proof.
  intros H0 Hstep s.
  assert (H : P s /\ (forall d rest', s = d :: rest' -> P rest')).
  { induction s as [|c rest [IH1 IH2]].
    - split; [exact H0 | discriminate].
    - split.
      + apply Hstep; assumption.
      + intros d rest' E. injection E as _ <-. exact IH1. }
  exact (proj1 H).
Qed.

(** [encodeURIComponent] returns exactly on the well-formed strings and
    throws [URIError] on the others. *)
Lemma Encode_returns_iff s :
  isWellFormed s = true <-> exists r, Encode s = Normal r.
Proof.
  induction s as [|c rest IH1 IH2] using units_ind2.
  - simpl. split; eauto.
  - simpl. destruct (alwaysUnescaped c) eqn:Hu.
    + destruct (unescaped_not_surrogate _ Hu) as [Hl Ht]. rewrite Hl, Ht. simpl.
      rewrite IH1. split.
      * intros [r ->]. simpl. eauto.
      * intros [r Hr]. apply bind_Normal in Hr. destruct Hr as [a [-> _]]. eauto.
    + destruct (isLeadingSurrogate c) eqn:Hl; simpl.
      * rewrite (leading_not_trailing _ Hl).
        destruct rest as [|d rest']; [split; [discriminate | intros [r Hr]; discriminate]|].
        destruct (isTrailingSurrogate d) eqn:Hd; simpl.
        -- rewrite (IH2 d rest' eq_refl). split.
           ++ intros [r ->]. simpl. eauto.
           ++ intros [r Hr]. apply bind_Normal in Hr. destruct Hr as [a [-> _]]. eauto.
        -- split; [discriminate | intros [r Hr]; discriminate].
      * destruct (isTrailingSurrogate c) eqn:Ht; simpl.
        -- split; [discriminate | intros [r Hr]; discriminate].
        -- rewrite IH1. split.
           ++ intros [r ->]. simpl. eauto.
           ++ intros [r Hr]. apply bind_Normal in Hr. destruct Hr as [a [-> _]]. eauto.
Qed.

Lemma Encode_throws_iff s :
  isWellFormed s = false <-> Encode s = Throw URIError.
Proof.
  split.
  - intros H. destruct (Encode s) as [r|[]] eqn:E; [|reflexivity].
    assert (isWellFormed s = true) by (apply Encode_returns_iff; eauto).
    congruence.
  - intros H. destruct (isWellFormed s) eqn:E; [|reflexivity].
    apply Encode_returns_iff in E. destruct E as [r Hr]. congruence.
Qed.

(** *** Octets and escapes *)

Lemma lor_lt_pow2 a b n : a < 2 ^ n -> b < 2 ^ n -> N.lor a b < 2 ^ n.
Proof.
  intros Ha Hb.
  destruct (N.eq_dec (N.lor a b) 0) as [E|E].
  - rewrite E. apply N.neq_0_lt_0. apply N.pow_nonzero. discriminate.
  - apply N.log2_lt_pow2; [lia|].
    rewrite N.log2_lor.
    assert (La : N.log2 a < n).
    { destruct (N.eq_dec a 0) as [->|Na].
      - simpl. destruct (N.eq_dec n 0) as [->|]; [|lia].
        simpl in Ha, Hb. assert (a0 : b = 0) by lia. subst b. now simpl in E.
      - apply N.log2_lt_pow2; lia. }
    assert (Lb : N.log2 b < n).
    { destruct (N.eq_dec b 0) as [->|Nb].
      - simpl. lia.
      - apply N.log2_lt_pow2; lia. }
    lia.
Qed.

Lemma lor_octet a b : a < 256 -> b < 256 -> N.lor a b < 256.
Proof. exact (@lor_lt_pow2 a b 8). Qed.

Lemma land_3F x : N.land x 0x3F < 256.
Proof.
  pose proof (N.land_le_r x 0x3F). lia.
Qed.

Lemma shiftr_lt x k m : x < m * 2 ^ k -> N.shiftr x k < m.
Proof.
  intros H. rewrite N.shiftr_div_pow2.
  apply N.Div0.div_lt_upper_bound. lia.
Qed.

(** The UTF-8 form of a code point below 2^26 consists of octets. *)
Lemma utf8_octets cp : cp < 0x4000000 -> Forall (fun o => o < 256) (utf8 cp).
Proof.
  intros H. unfold utf8.
  destruct (cp <? 0x80) eqn:H1; [apply N.ltb_lt in H1; repeat constructor; lia|].
  destruct (cp <? 0x800) eqn:H2.
  { apply N.ltb_lt in H2. repeat constructor.
    - apply lor_octet; [lia|]. assert (N.shiftr cp 6 < 32) by (apply shiftr_lt; simpl; lia). lia.
    - apply lor_octet; [lia | apply land_3F]. }
  destruct (cp <? 0x10000) eqn:H3.
  { apply N.ltb_lt in H3. repeat constructor.
    - apply lor_octet; [lia|]. assert (N.shiftr cp 12 < 16) by (apply shiftr_lt; simpl; lia). lia.
    - apply lor_octet; [lia | apply land_3F].
    - apply lor_octet; [lia | apply land_3F]. }
  repeat constructor.
  - apply lor_octet; [lia|]. apply shiftr_lt. simpl. lia.
  - apply lor_octet; [lia | apply land_3F].
  - apply lor_octet; [lia | apply land_3F].
  - apply lor_octet; [lia | apply land_3F].
Qed.

Lemma hexDigit_word d : d < 16 -> isAsciiWord (hexDigit d) = true.
Proof.
  intros H. unfold hexDigit, isAsciiWord.
  destruct (d <? 10) eqn:E.
  - apply N.ltb_lt in E.
    assert (R : in_range 48 57 (48 + d) = true) by (apply in_range_spec; lia).
    rewrite R. now rewrite !orb_true_r.
  - apply N.ltb_ge in E.
    assert (R : in_range 65 90 (55 + d) = true) by (apply in_range_spec; lia).
    now rewrite R.
Qed.

Lemma hexDigit_ge d : 48 <= hexDigit d.
Proof.
  unfold hexDigit. destruct (d <? 10); lia.
Qed.

Lemma percentEscape_safe o : o < 256 -> forallb uriSafe (percentEscape o) = true.
Proof.
  intros H. unfold percentEscape, uriSafe, alwaysUnescaped. simpl.
  rewrite !hexDigit_word.
  - reflexivity.
  - apply N.mod_lt. discriminate.
  - apply N.Div0.div_lt_upper_bound. lia.
Qed.

Lemma escapeOctets_safe os :
  Forall (fun o => o < 256) os -> forallb uriSafe (escapeOctets os) = true.
Proof.
  unfold escapeOctets. induction 1 as [|o os Ho _ IH]; [reflexivity|].
  cbn [flat_map]. rewrite forallb_app, IH, percentEscape_safe by assumption. reflexivity.
Qed.

Lemma surrogate_pair_range c d :
  isLeadingSurrogate c = true -> isTrailingSurrogate d = true ->
  0x10000 <= UTF16SurrogatePairToCodePoint c d <= 0x10FFFF.
Proof.
  unfold isLeadingSurrogate, isTrailingSurrogate, UTF16SurrogatePairToCodePoint.
  rewrite !in_range_spec. lia.
Qed.

(** Whatever the text, the encoded form contains nothing but unreserved
    characters and percent escapes: no [?], [&], [=], [#] or [/] can leak
    from the message into the structure of the link. *)
Lemma Encode_uriSafe s r :
  isCodeUnitString s = true -> Encode s = Normal r -> forallb uriSafe r = true.
Proof.
  revert r. induction s as [|c rest IH1 IH2] using units_ind2; intros r Hs He.
  - simpl in He. injection He as <-. reflexivity.
  - simpl in Hs. apply andb_true_iff in Hs. destruct Hs as [Hc Hrest].
    apply N.ltb_lt in Hc. simpl in He.
    destruct (alwaysUnescaped c) eqn:Hu.
    + apply bind_Normal in He. destruct He as [a [Ha E]]. injection E as <-.
      simpl. unfold uriSafe at 1. rewrite Hu. simpl. now apply IH1.
    + destruct (isLeadingSurrogate c) eqn:Hl; simpl in He.
      * rewrite (leading_not_trailing _ Hl) in He.
        destruct rest as [|d rest']; [discriminate|].
        destruct (isTrailingSurrogate d) eqn:Hd; [|discriminate].
        apply bind_Normal in He. destruct He as [a [Ha E]]. injection E as <-.
        simpl in Hrest. apply andb_true_iff in Hrest. destruct Hrest as [_ Hrest'].
        rewrite forallb_app, (IH2 d rest' eq_refl a Hrest' Ha), andb_true_r.
        apply escapeOctets_safe, utf8_octets.
        pose proof (surrogate_pair_range _ _ Hl Hd). lia.
      * destruct (isTrailingSurrogate c) eqn:Ht; simpl in He; [discriminate|].
        apply bind_Normal in He. destruct He as [a [Ha E]]. injection E as <-.
        rewrite forallb_app, (IH1 a Hrest Ha), andb_true_r.
        apply escapeOctets_safe, utf8_octets. lia.
Qed.

(** *** Unescaped characters survive, and none is introduced *)

Lemma occurrences_app c a b :
  occurrences c (a ++ b) = (occurrences c a + occurrences c b)%nat.
Proof.
  unfold occurrences. now rewrite filter_app, length_app.
Qed.

Lemma occurrences_cons c x s :
  occurrences c (x :: s) = ((if (c =? x)%N then 1 else 0) + occurrences c s)%nat.
Proof.
  unfold occurrences. simpl. destruct (c =? x); reflexivity.
Qed.

Lemma escapeOctets_no_mark c os :
  c < 48 -> c <> 37 -> occurrences c (escapeOctets os) = 0%nat.
Proof.
  intros Hc Hp. unfold escapeOctets.
  induction os as [|o os IH]; [reflexivity|].
  cbn [flat_map]. rewrite occurrences_app, IH. unfold percentEscape.
  rewrite !occurrences_cons.
  pose proof (hexDigit_ge (o / 16)). pose proof (hexDigit_ge (o mod 16)).
  destruct (N.eqb_spec c 37); [contradiction|].
  destruct (N.eqb_spec c (hexDigit (o / 16))); [lia|].
  destruct (N.eqb_spec c (hexDigit (o mod 16))); [lia|].
  reflexivity.
Qed.

(** An unescaped mark below ['0'] (such as ['!'], code 33) occurs in the
    output exactly as often as in the input. *)
Lemma Encode_keeps_mark m s r :
  alwaysUnescaped m = true -> m < 48 ->
  Encode s = Normal r -> occurrences m r = occurrences m s.
Proof.
  intros Hm Hlt. assert (Hp : m <> 37) by (intros ->; discriminate).
  revert r. induction s as [|c rest IH1 IH2] using units_ind2; intros r He.
  - simpl in He. now injection He as <-.
  - simpl in He. destruct (alwaysUnescaped c) eqn:Hu.
    + apply bind_Normal in He. destruct He as [a [Ha E]]. injection E as <-.
      rewrite !occurrences_cons. now rewrite (IH1 a Ha).
    + assert (Hmc : (m =? c) = false).
      { apply N.eqb_neq. intros ->. congruence. }
      destruct (isLeadingSurrogate c) eqn:Hl; simpl in He.
      * rewrite (leading_not_trailing _ Hl) in He.
        destruct rest as [|d rest']; [discriminate|].
        destruct (isTrailingSurrogate d) eqn:Hd; [|discriminate].
        apply bind_Normal in He. destruct He as [a [Ha E]]. injection E as <-.
        assert (Hmd : (m =? d) = false).
        { apply N.eqb_neq. intros ->.
          destruct (unescaped_not_surrogate _ Hm). congruence. }
        rewrite occurrences_app, escapeOctets_no_mark, !occurrences_cons, Hmc, Hmd by assumption.
        simpl. exact (IH2 d rest' eq_refl a Ha).
      * destruct (isTrailingSurrogate c) eqn:Ht; simpl in He; [discriminate|].
        apply bind_Normal in He. destruct He as [a [Ha E]]. injection E as <-.
        rewrite occurrences_app, escapeOctets_no_mark, occurrences_cons, Hmc by assumption.
        simpl. exact (IH1 a Ha).
Qed.

(** *** The encoding can be read back *)

Ltac enum_below x :=
  destruct x as [|x]; [reflexivity|];
  repeat (destruct x as [x|x|]; try reflexivity; try (exfalso; lia)).

Lemma lor_80 x : x < 64 -> N.lor 0x80 x = 0x80 + x.
Proof. intros H. enum_below x. Qed.

Lemma lor_C0 x : x < 32 -> N.lor 0xC0 x = 0xC0 + x.
Proof. intros H. enum_below x. Qed.

Lemma lor_E0 x : x < 16 -> N.lor 0xE0 x = 0xE0 + x.
Proof. intros H. enum_below x. Qed.

Lemma lor_F0 x : x < 8 -> N.lor 0xF0 x = 0xF0 + x.
Proof. intros H. enum_below x. Qed.

Lemma land_3F_mod x : N.land x 0x3F = x mod 64.
Proof. exact (N.land_ones x 6). Qed.

Lemma low6 x : N.lor 0x80 (N.land x 0x3F) = 0x80 + x mod 64.
Proof.
  rewrite land_3F_mod. apply lor_80. apply N.mod_lt. discriminate.
Qed.

Lemma shiftr_6 x : N.shiftr x 6 = x / 64.
Proof. exact (N.shiftr_div_pow2 x 6). Qed.
Lemma shiftr_12 x : N.shiftr x 12 = x / 4096.
Proof. exact (N.shiftr_div_pow2 x 12). Qed.
Lemma shiftr_18 x : N.shiftr x 18 = x / 262144.
Proof. exact (N.shiftr_div_pow2 x 18). Qed.

Lemma div_lt x k m : x < m * k -> x / k < m.
Proof. intros H. apply N.Div0.div_lt_upper_bound. lia. Qed.

Lemma utf8_1 cp : cp < 0x80 -> utf8 cp = [cp].
Proof.
  intros H. unfold utf8. apply N.ltb_lt in H. now rewrite H.
Qed.

Lemma utf8_2 cp :
  0x80 <= cp < 0x800 -> utf8 cp = [0xC0 + cp / 64; 0x80 + cp mod 64].
Proof.
  intros [H1 H2]. unfold utf8.
  apply N.ltb_ge in H1. apply N.ltb_lt in H2 as H2'. rewrite H1, H2'.
  rewrite low6, shiftr_6, lor_C0; [reflexivity | apply div_lt; lia].
Qed.

Lemma utf8_3 cp :
  0x800 <= cp < 0x10000 ->
  utf8 cp = [0xE0 + cp / 4096; 0x80 + (cp / 64) mod 64; 0x80 + cp mod 64].
Proof.
  intros [H1 H2]. unfold utf8.
  assert (E1 : (cp <? 0x80) = false) by (apply N.ltb_ge; lia).
  assert (E2 : (cp <? 0x800) = false) by (apply N.ltb_ge; lia).
  apply N.ltb_lt in H2 as E3. rewrite E1, E2, E3.
  rewrite !low6, shiftr_6, shiftr_12, lor_E0; [reflexivity | apply div_lt; lia].
Qed.

Lemma utf8_4 cp :
  0x10000 <= cp < 0x200000 ->
  utf8 cp = [0xF0 + cp / 262144; 0x80 + (cp / 4096) mod 64;
             0x80 + (cp / 64) mod 64; 0x80 + cp mod 64].
Proof.
  intros [H1 H2]. unfold utf8.
  assert (E1 : (cp <? 0x80) = false) by (apply N.ltb_ge; lia).
  assert (E2 : (cp <? 0x800) = false) by (apply N.ltb_ge; lia).
  assert (E3 : (cp <? 0x10000) = false) by (apply N.ltb_ge; lia).
  rewrite E1, E2, E3.
  rewrite !low6, shiftr_6, shiftr_12, shiftr_18, lor_F0;
    [reflexivity | apply div_lt; lia].
Qed.

Lemma utf8_length cp : (1 <= List.length (utf8 cp) <= 4)%nat.
Proof.
  unfold utf8.
  destruct (cp <? 0x80); [simpl; lia|].
  destruct (cp <? 0x800); [simpl; lia|].
  destruct (cp <? 0x10000); simpl; lia.
Qed.

Lemma utf8_length_bmp cp : cp < 0x10000 -> (List.length (utf8 cp) <= 3)%nat.
Proof.
  intros H. unfold utf8. apply N.ltb_lt in H. rewrite H.
  destruct (cp <? 0x80); [simpl; lia|].
  destruct (cp <? 0x800); simpl; lia.
Qed.

Lemma unhex_hexDigit d : d < 16 -> unhex (hexDigit d) = Some d.
Proof.
  intros H. unfold unhex, hexDigit.
  destruct (d <? 10) eqn:E.
  - apply N.ltb_lt in E.
    assert (R : in_range 48 57 (48 + d) = true) by (apply in_range_spec; lia).
    rewrite R. f_equal. lia.
  - apply N.ltb_ge in E.
    assert (R1 : in_range 48 57 (55 + d) = false) by (apply in_range_false; lia).
    assert (R2 : in_range 65 70 (55 + d) = true) by (apply in_range_spec; lia).
    rewrite R1, R2. f_equal. lia.
Qed.

Lemma tokens_percentEscape o r :
  o < 256 ->
  tokens (percentEscape o ++ r) =
  match tokens r with Some ts => Some (Octet o :: ts) | None => None end.
Proof.
  intros H. unfold percentEscape. cbn [app tokens].
  change (37 =? 37) with true. cbv iota.
  rewrite !unhex_hexDigit.
  - destruct (tokens r); [|reflexivity].
    do 2 f_equal. f_equal. pose proof (N.div_mod o 16). lia.
  - apply N.mod_lt. discriminate.
  - apply div_lt. lia.
Qed.

Lemma tokens_escapeOctets os r :
  Forall (fun o => o < 256) os ->
  tokens (escapeOctets os ++ r) =
  match tokens r with Some ts => Some (List.map Octet os ++ ts) | None => None end.
Proof.
  unfold escapeOctets. induction 1 as [|o os Ho _ IH].
  - simpl. now destruct (tokens r).
  - cbn [flat_map List.map]. rewrite <- app_assoc, tokens_percentEscape, IH by assumption.
    now destruct (tokens r).
Qed.

Lemma tokens_unescaped c r :
  alwaysUnescaped c = true ->
  tokens (c :: r) =
  match tokens r with Some ts => Some (Lit c :: ts) | None => None end.
Proof.
  intros H. cbn [tokens].
  destruct (N.eqb_spec c 37) as [->|_]; [discriminate H | reflexivity].
Qed.

Ltac cond_true c := let E := fresh in assert (E : c = true)
  by (first [apply N.ltb_lt | apply in_range_spec]; lia); rewrite E; clear E.
Ltac cond_false c := let E := fresh in assert (E : c = false)
  by (apply N.ltb_ge; lia); rewrite E; clear E.

Lemma codeUnitsOf_bmp cp : cp < 0x10000 -> codeUnitsOf cp = [cp].
Proof.
  intros H. unfold codeUnitsOf. apply N.ltb_lt in H. now rewrite H.
Qed.

Lemma codeUnitsOf_pair c d :
  isLeadingSurrogate c = true -> isTrailingSurrogate d = true ->
  codeUnitsOf (UTF16SurrogatePairToCodePoint c d) = [c; d].
Proof.
  unfold isLeadingSurrogate, isTrailingSurrogate. rewrite !in_range_spec.
  intros Hc Hd. unfold codeUnitsOf, UTF16SurrogatePairToCodePoint.
  cond_false ((c - 0xD800) * 0x400 + (d - 0xDC00) + 0x10000 <? 0x10000).
  replace ((c - 0xD800) * 0x400 + (d - 0xDC00) + 0x10000 - 0x10000)
    with ((d - 0xDC00) + (c - 0xD800) * 0x400) by lia.
  rewrite N.div_add, N.Div0.mod_add by discriminate.
  rewrite N.div_small, N.mod_small by lia.
  f_equal; [lia | f_equal; lia].
Qed.

Lemma decodeTokens_utf8 cp ts :
  cp < 0x110000 ->
  decodeTokens (List.map Octet (utf8 cp) ++ ts) =
  match decodeTokens ts with
  | Some r => Some (codeUnitsOf cp ++ r)
  | None => None
  end.
Proof.
  intros H.
  pose proof (N.div_mod cp 64 ltac:(discriminate)) as D1.
  pose proof (N.mod_lt cp 64 ltac:(discriminate)) as M1.
  pose proof (N.div_mod (cp / 64) 64 ltac:(discriminate)) as D2.
  pose proof (N.mod_lt (cp / 64) 64 ltac:(discriminate)) as M2.
  pose proof (N.div_mod (cp / 4096) 64 ltac:(discriminate)) as D3.
  pose proof (N.mod_lt (cp / 4096) 64 ltac:(discriminate)) as M3.
  assert (Q2 : cp / 64 / 64 = cp / 4096) by (now rewrite N.Div0.div_div).
  assert (Q3 : cp / 4096 / 64 = cp / 262144) by (now rewrite N.Div0.div_div).
  rewrite Q2 in D2. rewrite Q3 in D3.
  destruct (N.lt_ge_cases cp 0x80) as [R1|R1].
  { rewrite (utf8_1 R1). cbn [List.map app decodeTokens].
    cond_true (cp <? 0x80). rewrite codeUnitsOf_bmp by lia. reflexivity. }
  destruct (N.lt_ge_cases cp 0x800) as [R2|R2].
  { rewrite (utf8_2 (conj R1 R2)). cbn [List.map app decodeTokens].
    set (q := cp / 64) in *. set (m := cp mod 64) in *.
    cond_false (0xC0 + q <? 0x80). cond_false (0xC0 + q <? 0xC0).
    cond_true (0xC0 + q <? 0xE0). unfold continuation.
    cond_true (in_range 0x80 0xBF (0x80 + m)).
    replace ((0xC0 + q - 0xC0) * 0x40 + (0x80 + m - 0x80)) with cp by lia.
    rewrite codeUnitsOf_bmp by lia. reflexivity. }
  destruct (N.lt_ge_cases cp 0x10000) as [R3|R3].
  { rewrite (utf8_3 (conj R2 R3)). cbn [List.map app decodeTokens].
    set (q := cp / 4096) in *. set (m2 := (cp / 64) mod 64) in *.
    set (m := cp mod 64) in *.
    cond_false (0xE0 + q <? 0x80). cond_false (0xE0 + q <? 0xC0).
    cond_false (0xE0 + q <? 0xE0). cond_true (0xE0 + q <? 0xF0).
    unfold continuation.
    cond_true (in_range 0x80 0xBF (0x80 + m2)).
    cond_true (in_range 0x80 0xBF (0x80 + m)). cbn [andb].
    replace ((0xE0 + q - 0xE0) * 0x1000 + (0x80 + m2 - 0x80) * 0x40 + (0x80 + m - 0x80))
      with cp by lia.
    rewrite codeUnitsOf_bmp by lia. reflexivity. }
  rewrite (utf8_4 (cp := cp)) by lia. cbn [List.map app decodeTokens].
  set (q := cp / 262144) in *. set (m3 := (cp / 4096) mod 64) in *.
  set (m2 := (cp / 64) mod 64) in *. set (m := cp mod 64) in *.
  cond_false (0xF0 + q <? 0x80). cond_false (0xF0 + q <? 0xC0).
  cond_false (0xF0 + q <? 0xE0). cond_false (0xF0 + q <? 0xF0).
  unfold continuation.
  cond_true (in_range 0x80 0xBF (0x80 + m3)).
  cond_true (in_range 0x80 0xBF (0x80 + m2)).
  cond_true (in_range 0x80 0xBF (0x80 + m)). cbn [andb].
  replace ((0xF0 + q - 0xF0) * 0x40000 + (0x80 + m3 - 0x80) * 0x1000
           + (0x80 + m2 - 0x80) * 0x40 + (0x80 + m - 0x80)) with cp by lia.
  reflexivity.
Qed.

Lemma decodeComponent_cons c r :
  alwaysUnescaped c = true ->
  decodeComponent (c :: r) =
  match decodeComponent r with Some s => Some (c :: s) | None => None end.
Proof.
  intros H. unfold decodeComponent. rewrite (@tokens_unescaped c r H).
  destruct (tokens r); reflexivity.
Qed.

Lemma decodeComponent_escape cp r :
  cp < 0x110000 ->
  decodeComponent (escapeOctets (utf8 cp) ++ r) =
  match decodeComponent r with
  | Some s => Some (codeUnitsOf cp ++ s)
  | None => None
  end.
Proof.
  intros H. unfold decodeComponent.
  rewrite tokens_escapeOctets by (apply utf8_octets; lia).
  destruct (tokens r) as [ts|]; [|reflexivity].
  now apply decodeTokens_utf8.
Qed.

(** Decoding what [encodeURIComponent] returned gives the text back. *)
Lemma decode_Encode s r :
  isCodeUnitString s = true -> Encode s = Normal r -> decodeComponent r = Some s.
Proof.
  revert r. induction s as [|c rest IH1 IH2] using units_ind2; intros r Hs He.
  - simpl in He. injection He as <-. reflexivity.
  - simpl in Hs. apply andb_true_iff in Hs. destruct Hs as [Hc Hrest].
    apply N.ltb_lt in Hc. simpl in He.
    destruct (alwaysUnescaped c) eqn:Hu.
    + apply bind_Normal in He. destruct He as [a [Ha E]]. injection E as <-.
      rewrite decodeComponent_cons by exact Hu. now rewrite (IH1 a Hrest Ha).
    + destruct (isLeadingSurrogate c) eqn:Hl; simpl in He.
      * rewrite (leading_not_trailing _ Hl) in He.
        destruct rest as [|d rest']; [discriminate|].
        destruct (isTrailingSurrogate d) eqn:Hd; [|discriminate].
        apply bind_Normal in He. destruct He as [a [Ha E]]. injection E as <-.
        simpl in Hrest. apply andb_true_iff in Hrest. destruct Hrest as [_ Hrest'].
        pose proof (surrogate_pair_range _ _ Hl Hd) as Hp.
        rewrite decodeComponent_escape by lia.
        rewrite (IH2 d rest' eq_refl a Hrest' Ha), codeUnitsOf_pair by assumption.
        reflexivity.
      * destruct (isTrailingSurrogate c) eqn:Ht; simpl in He; [discriminate|].
        apply bind_Normal in He. destruct He as [a [Ha E]]. injection E as <-.
        rewrite decodeComponent_escape by lia.
        rewrite (IH1 a Hrest Ha), codeUnitsOf_bmp by lia. reflexivity.
Qed.

(** *** Composition, size and fixed points of the encoding *)

Lemma isWellFormed_unescaped c rest :
  alwaysUnescaped c = true -> isWellFormed (c :: rest) = isWellFormed rest.
Proof.
  intros H. destruct (unescaped_not_surrogate _ H) as [Hl Ht].
  cbn [isWellFormed]. now rewrite Hl, Ht.
Qed.

Lemma bind_assoc_cons (c : CodeUnit) (x y : Completion JSString) :
  (r <- (a <- x ;; b <- y ;; Normal (a ++ b)) ;; Normal (c :: r)) =
  (a <- (r <- x ;; Normal (c :: r)) ;; b <- y ;; Normal (a ++ b)).
Proof. destruct x as [a|e]; [|reflexivity]. simpl. now destruct y. Qed.

Lemma bind_assoc_app (p : JSString) (x y : Completion JSString) :
  (r <- (a <- x ;; b <- y ;; Normal (a ++ b)) ;; Normal (p ++ r)) =
  (a <- (r <- x ;; Normal (p ++ r)) ;; b <- y ;; Normal (a ++ b)).
Proof.
  destruct x as [a|e]; [|reflexivity]. simpl.
  destruct y; [|reflexivity]. simpl. now rewrite app_assoc.
Qed.

Lemma Encode_app_wf a b :
  isWellFormed a = true ->
  Encode (a ++ b) = (x <- Encode a ;; y <- Encode b ;; Normal (x ++ y)).
Proof.
  induction a as [|c rest IH1 IH2] using units_ind2; intros Hwf.
  - simpl. now destruct (Encode b).
  - cbn [app Encode]. destruct (alwaysUnescaped c) eqn:Hu.
    + rewrite isWellFormed_unescaped in Hwf by exact Hu.
      rewrite (IH1 Hwf). apply bind_assoc_cons.
    + cbn [isWellFormed] in Hwf.
      destruct (isLeadingSurrogate c) eqn:Hl.
      * rewrite (leading_not_trailing _ Hl). cbn [orb negb].
        destruct rest as [|d rest']; [discriminate Hwf|].
        apply andb_true_iff in Hwf. destruct Hwf as [Hd Hwf].
        cbn [app]. rewrite Hd, (IH2 d rest' eq_refl Hwf).
        apply bind_assoc_app.
      * apply andb_true_iff in Hwf. destruct Hwf as [Ht Hwf].
        apply negb_true_iff in Ht. rewrite Ht. cbn [orb negb].
        rewrite (IH1 Hwf). apply bind_assoc_app.
Qed.

Lemma escapeOctets_length os :
  List.length (escapeOctets os) = (3 * List.length os)%nat.
Proof.
  unfold escapeOctets. induction os as [|o os IH]; [reflexivity|].
  cbn [flat_map]. rewrite length_app, IH. simpl. lia.
Qed.

Lemma Encode_length s r :
  isCodeUnitString s = true -> Encode s = Normal r ->
  (List.length s <= List.length r <= 9 * List.length s)%nat.
Proof.
  revert r. induction s as [|c rest IH1 IH2] using units_ind2; intros r Hs He.
  - simpl in He. injection He as <-. simpl. lia.
  - simpl in Hs. apply andb_true_iff in Hs. destruct Hs as [Hc Hrest].
    apply N.ltb_lt in Hc. simpl in He.
    destruct (alwaysUnescaped c) eqn:Hu.
    + apply bind_Normal in He. destruct He as [a [Ha E]]. injection E as <-.
      specialize (IH1 a Hrest Ha). simpl. lia.
    + destruct (isLeadingSurrogate c) eqn:Hl; simpl in He.
      * rewrite (leading_not_trailing _ Hl) in He.
        destruct rest as [|d rest']; [discriminate|].
        destruct (isTrailingSurrogate d) eqn:Hd; [|discriminate].
        apply bind_Normal in He. destruct He as [a [Ha E]]. injection E as <-.
        simpl in Hrest. apply andb_true_iff in Hrest. destruct Hrest as [_ Hrest'].
        specialize (IH2 d rest' eq_refl a Hrest' Ha).
        rewrite length_app, escapeOctets_length.
        pose proof (utf8_length (UTF16SurrogatePairToCodePoint c d)).
        simpl List.length. lia.
      * destruct (isTrailingSurrogate c) eqn:Ht; simpl in He; [discriminate|].
        apply bind_Normal in He. destruct He as [a [Ha E]]. injection E as <-.
        specialize (IH1 a Hrest Ha).
        rewrite length_app, escapeOctets_length.
        pose proof (utf8_length c). pose proof (@utf8_length_bmp c Hc).
        simpl List.length. lia.
Qed.

Lemma Encode_length_ge s r :
  Encode s = Normal r -> (List.length s <= List.length r)%nat.
Proof.
  revert r. induction s as [|c rest IH1 IH2] using units_ind2; intros r He.
  - simpl. lia.
  - simpl in He. destruct (alwaysUnescaped c) eqn:Hu.
    + apply bind_Normal in He. destruct He as [a [Ha E]]. injection E as <-.
      specialize (IH1 a Ha). simpl. lia.
    + destruct (isLeadingSurrogate c) eqn:Hl; simpl in He.
      * rewrite (leading_not_trailing _ Hl) in He.
        destruct rest as [|d rest']; [discriminate|].
        destruct (isTrailingSurrogate d) eqn:Hd; [|discriminate].
        apply bind_Normal in He. destruct He as [a [Ha E]]. injection E as <-.
        specialize (IH2 d rest' eq_refl a Ha).
        rewrite length_app, escapeOctets_length.
        pose proof (utf8_length (UTF16SurrogatePairToCodePoint c d)).
        simpl List.length. lia.
      * destruct (isTrailingSurrogate c) eqn:Ht; simpl in He; [discriminate|].
        apply bind_Normal in He. destruct He as [a [Ha E]]. injection E as <-.
        specialize (IH1 a Ha).
        rewrite length_app, escapeOctets_length.
        pose proof (utf8_length c). simpl List.length. lia.
Qed.

Lemma Encode_unescaped s :
  forallb alwaysUnescaped s = true -> Encode s = Normal s.
Proof.
  induction s as [|c rest IH]; [reflexivity|].
  simpl. intros H. apply andb_true_iff in H. destruct H as [Hc Hr].
  now rewrite Hc, (IH Hr).
Qed.

Lemma Encode_fixed s :
  Encode s = Normal s -> forallb alwaysUnescaped s = true.
Proof.
  induction s as [|c rest IH1 IH2] using units_ind2; intros He; [reflexivity|].
  simpl in He. simpl. destruct (alwaysUnescaped c) eqn:Hu.
  - apply bind_Normal in He. destruct He as [a [Ha E]]. injection E as ->.
    now apply IH1.
  - exfalso. destruct (isLeadingSurrogate c) eqn:Hl; simpl in He.
    + rewrite (leading_not_trailing _ Hl) in He.
      destruct rest as [|d rest']; [discriminate|].
      destruct (isTrailingSurrogate d) eqn:Hd; [|discriminate].
      apply bind_Normal in He. destruct He as [a [Ha E]].
      apply (f_equal (fun v => match v with Normal l => List.length l | Throw _ => 0%nat end)) in E.
      rewrite length_app, escapeOctets_length in E.
      pose proof (utf8_length (UTF16SurrogatePairToCodePoint c d)).
      pose proof (@Encode_length_ge _ _ Ha). simpl in E. lia.
    + destruct (isTrailingSurrogate c) eqn:Ht; simpl in He; [discriminate|].
      apply bind_Normal in He. destruct He as [a [Ha E]].
      apply (f_equal (fun v => match v with Normal l => List.length l | Throw _ => 0%nat end)) in E.
      rewrite length_app, escapeOctets_length in E.
      pose proof (utf8_length c).
      pose proof (@Encode_length_ge _ _ Ha). simpl in E. lia.
Qed.

(** *** Splitting a link at its last question mark *)

Lemma split_last_mark (q : CodeUnit) (x y a b : JSString) :
  occurrences q a = 0%nat -> occurrences q b = 0%nat ->
  x ++ q :: a = y ++ q :: b -> x = y /\ a = b.
Proof.
  intros Ha Hb. revert y. induction x as [|c x IH]; intros y E.
  - destruct y as [|d y]; simpl in E.
    + injection E as ->. now split.
    + exfalso. injection E as -> ->.
      rewrite occurrences_app, occurrences_cons, N.eqb_refl in Ha. lia.
  - destruct y as [|d y]; simpl in E.
    + exfalso. injection E as -> <-.
      rewrite occurrences_app, occurrences_cons, N.eqb_refl in Hb. lia.
    + injection E as -> E. destruct (IH y E) as [-> ->]. now split.
Qed.

Lemma uriSafe_no_mark (q : CodeUnit) s :
  uriSafe q = false -> forallb uriSafe s = true -> occurrences q s = 0%nat.
Proof.
  intros Hq. induction s as [|c s IH]; [reflexivity|].
  simpl. intros H. apply andb_true_iff in H. destruct H as [Hc Hs].
  rewrite occurrences_cons, (IH Hs).
  destruct (N.eqb_spec q c) as [->|_]; [congruence | reflexivity].
Qed.

End JSFacts.

(** ** Properties of the component *)

Module WidgetFacts.

Import JS Widget JSFacts.

(** *** The deep link *)

Lemma buildDeepLink_returns (id text enc : JSString) :
  encodeURIComponent text = Normal enc ->
  buildDeepLink id text = Normal (lit "https://wa.me/" ++ id ++ lit "?text=" ++ enc).
Proof.
  intros H. unfold buildDeepLink. now rewrite H.
Qed.

Lemma buildDeepLink_throws_iff (id text : JSString) :
  buildDeepLink id text = Throw URIError <-> isWellFormed text = false.
Proof.
  rewrite Encode_throws_iff. unfold buildDeepLink, encodeURIComponent.
  destruct (Encode text) as [r|[]]; simpl; split; intros H;
    first [discriminate H | reflexivity].
Qed.

(** C1, as stated, fails: a message holding an unpaired surrogate makes
    [encodeURIComponent] throw, so no link of any shape is returned. *)
Lemma buildDeepLink_unpaired_surrogate :
  buildDeepLink (lit "15551234567") [0xD800%N] = Throw URIError /\
  ~ (exists enc,
       buildDeepLink (lit "15551234567") [0xD800%N] =
       Normal (lit "https://wa.me/" ++ lit "15551234567" ++ lit "?text=" ++ enc)).
Proof.
  split; [reflexivity|]. intros [enc H]. discriminate H.
Qed.

(** C1 (amended): for every destination id and every text that is
    well-formed UTF-16, the link is [https://wa.me/] followed by the id,
    [?text=] and the encoded text; for the empty text it ends in [?text=]. *)
Theorem buildDeepLink_shape (id text : JSString) :
  isWellFormed text = true ->
  (exists enc,
     encodeURIComponent text = Normal enc /\
     buildDeepLink id text =
     Normal (lit "https://wa.me/" ++ id ++ lit "?text=" ++ enc)) /\
  buildDeepLink id (lit "") = Normal (lit "https://wa.me/" ++ id ++ lit "?text=").
Proof.
  intros Hwf. split.
  - apply Encode_returns_iff in Hwf. destruct Hwf as [enc Henc].
    exists enc. split; [exact Henc|]. now apply buildDeepLink_returns.
  - unfold buildDeepLink.
    change (encodeURIComponent (lit "")) with (@Normal JSString []).
    cbn [bind]. now rewrite app_nil_r.
Qed.

Lemma buildDeepLink_shape_witness :
  isWellFormed (lit "Hi there!") = true /\
  ((exists enc,
      encodeURIComponent (lit "Hi there!") = Normal enc /\
      buildDeepLink (lit "15551234567") (lit "Hi there!") =
      Normal (lit "https://wa.me/" ++ lit "15551234567" ++ lit "?text=" ++ enc)) /\
   buildDeepLink (lit "15551234567") (lit "") =
   Normal (lit "https://wa.me/" ++ lit "15551234567" ++ lit "?text=")).
Proof.
  split; [reflexivity|].
  apply (buildDeepLink_shape (lit "15551234567") (lit "Hi there!")). reflexivity.
Defined.

(** The text cannot change the structure of the link: the part after
    [?text=] holds only unreserved characters and percent escapes. *)
Lemma buildDeepLink_component_safe (id text url : JSString) :
  isCodeUnitString text = true ->
  buildDeepLink id text = Normal url ->
  exists enc,
    url = lit "https://wa.me/" ++ id ++ lit "?text=" ++ enc /\
    forallb uriSafe enc = true.
Proof.
  intros Hs H. unfold buildDeepLink in H.
  apply bind_Normal in H. destruct H as [enc [Henc E]]. injection E as <-.
  exists enc. split; [reflexivity|]. exact (Encode_uriSafe _ Hs Henc).
Qed.

(** C2, as stated, fails: the exclamation mark is not escaped. *)
Lemma buildDeepLink_hi_there_not_21 :
  buildDeepLink (lit "15551234567") (lit "Hi there!") <>
  Normal (lit "https://wa.me/15551234567?text=Hi%20there%21").
Proof.
  vm_compute. discriminate.
Qed.

(** C2 (amended): the link for ["15551234567"] and ["Hi there!"] is
    [https://wa.me/15551234567?text=Hi%20there!].  Whatever the text, the
    encoded component holds only unreserved characters and percent
    escapes, so spaces, reserved characters and non-ASCII text are all
    escaped; and an exclamation mark is an unreserved character, which is
    never escaped. *)
Theorem buildDeepLink_hi_there :
  buildDeepLink (lit "15551234567") (lit "Hi there!") =
  Normal (lit "https://wa.me/15551234567?text=Hi%20there!") /\
  (forall text enc,
     isCodeUnitString text = true ->
     encodeURIComponent text = Normal enc ->
     forallb uriSafe enc = true) /\
  (forall text enc,
     encodeURIComponent text = Normal enc ->
     occurrences 33%N enc = occurrences 33%N text).
Proof.
  split; [reflexivity|]. split.
  - intros text enc Hs H. exact (Encode_uriSafe _ Hs H).
  - intros text enc H. now apply Encode_keeps_mark.
Qed.

Lemma buildDeepLink_hi_there_witness :
  isCodeUnitString (lit "Hi there!") = true /\
  encodeURIComponent (lit "Hi there!") = Normal (lit "Hi%20there!") /\
  forallb uriSafe (lit "Hi%20there!") = true /\
  occurrences 33%N (lit "Hi%20there!") = occurrences 33%N (lit "Hi there!").
Proof.
  split; [reflexivity|]. split; [reflexivity|]. split.
  - apply (proj1 (proj2 buildDeepLink_hi_there) (lit "Hi there!") (lit "Hi%20there!"));
      reflexivity.
  - apply (proj2 (proj2 buildDeepLink_hi_there) (lit "Hi there!") (lit "Hi%20there!")).
    reflexivity.
Defined.

(** Reserved characters, line breaks and non-ASCII text are escaped. *)
Example encode_reserved :
  encodeURIComponent (lit "a&b=c/d?e#f") = Normal (lit "a%26b%3Dc%2Fd%3Fe%23f").
Proof. reflexivity. Qed.

Example encode_line_break :
  encodeURIComponent [72; 105; 10; 33]%N = Normal (lit "Hi%0A!").
Proof. reflexivity. Qed.

Example encode_non_ascii :
  encodeURIComponent [0xE9; 0x20AC; 0xD83D; 0xDE00]%N =
  Normal (lit "%C3%A9%E2%82%AC%F0%9F%98%80").
Proof. reflexivity. Qed.

(** *** Rendering depends on the hooks through two flags *)

Lemma panelRendered_spec (p : WhatsAppWidgetProps) (h : Hooks) :
  panelRendered p h = mounted h && isOpen h.
Proof.
  unfold panelRendered, render. destruct (mounted h), (isOpen h); reflexivity.
Qed.

Lemma valueAttribute_spec (p : WhatsAppWidgetProps) (h : Hooks) :
  valueAttribute p h = if mounted h && isOpen h then Some (message h) else None.
Proof.
  unfold valueAttribute, render. destruct (mounted h), (isOpen h); reflexivity.
Qed.

(** A commit never touches props, hooks, liveness or the log. *)
Ltac commit_cases w prev :=
  unfold commit, focusEffect;
  destruct (panelRendered (props w) (hooks w));
    [|destruct (panelRendered (props w) prev)]; simpl;
  destruct (Bool.eqb (isOpen prev) (isOpen (hooks w))); simpl; try reflexivity;
  match goal with |- context [if ?b then _ else _] => destruct b end;
  reflexivity.

Lemma commit_hooks prev w : hooks (commit prev w) = hooks w.
Proof. commit_cases w prev. Qed.

Lemma commit_props prev w : props (commit prev w) = props w.
Proof. commit_cases w prev. Qed.

Lemma commit_attached prev w : attached (commit prev w) = attached w.
Proof. commit_cases w prev. Qed.

Lemma commit_log prev w : log (commit prev w) = log w.
Proof. commit_cases w prev. Qed.

Lemma update_hooks f w : hooks (update f w) = f (hooks w).
Proof. unfold update. now rewrite commit_hooks. Qed.

Lemma update_props f w : props (update f w) = props w.
Proof. unfold update. now rewrite commit_props. Qed.

Lemma update_attached f w : attached (update f w) = attached w.
Proof. unfold update. now rewrite commit_attached. Qed.

Lemma update_log f w : log (update f w) = log w.
Proof. unfold update. now rewrite commit_log. Qed.

Lemma focusEffect_hooks w : hooks (focusEffect w) = hooks w.
Proof. unfold focusEffect. destruct (isOpen (hooks w) && inputRef w); reflexivity. Qed.

Lemma focusEffect_props w : props (focusEffect w) = props w.
Proof. unfold focusEffect. destruct (isOpen (hooks w) && inputRef w); reflexivity. Qed.

Lemma send_hooks c w : hooks (send c w) = hooks w.
Proof. reflexivity. Qed.

Lemma send_props c w : props (send c w) = props w.
Proof. reflexivity. Qed.

Lemma run_app w es1 es2 : run w (es1 ++ es2) = run (run w es1) es2.
Proof. unfold run. apply fold_left_app. Qed.

(** *** Open and closed *)

(** C4: one click on the floating button flips [isOpen], two clicks give
    back the state they started from. *)
Theorem toggleOpen_involution (w : Instance) :
  isOpen (toggleOpen (hooks w)) = negb (isOpen (hooks w)) /\
  toggleOpen (toggleOpen (hooks w)) = hooks w /\
  isOpen (hooks (step w ClickFloatingButton)) =
    xorb (attached w && mounted (hooks w)) (isOpen (hooks w)) /\
  hooks (run w [ClickFloatingButton; ClickFloatingButton]) = hooks w.
Proof.
  assert (T : forall h, toggleOpen (toggleOpen h) = h).
  { intros [o m mt]. unfold toggleOpen, setIsOpen. simpl. now rewrite negb_involutive. }
  repeat split.
  - apply T.
  - simpl. destruct (attached w), (mounted (hooks w)); simpl;
      rewrite ?update_hooks; simpl; now destruct (isOpen (hooks w)).
  - simpl. destruct (attached w) eqn:Ha, (mounted (hooks w)) eqn:Hm; simpl;
      rewrite ?Ha, ?Hm; simpl; try reflexivity.
    rewrite update_attached, update_hooks, Ha. simpl. rewrite Hm. simpl.
    rewrite !update_hooks. apply T.
Qed.

Lemma close_forces_closed (h : Hooks) :
  isOpen (close h) = false /\ message (close h) = message h /\
  mounted (close h) = mounted h.
Proof. repeat split. Qed.

(** *** Entrance and exit offsets *)

(** C5: for each of the four corners the hidden (entrance) and exit
    offsets are negative when the widget is pinned to the top of the
    screen and positive when it is pinned to the bottom. *)
Theorem offset_sign_matches_anchor (pos : Position) :
  match verticalAnchor pos with
  | AnchorTop =>
      (hidden_y (chatContainerVariants pos) < 0)%Z /\
      (exit_y (chatContainerVariants pos) < 0)%Z /\
      (pos = TopRight \/ pos = TopLeft)
  | AnchorBottom =>
      (0 < hidden_y (chatContainerVariants pos))%Z /\
      (0 < exit_y (chatContainerVariants pos))%Z /\
      (pos = BottomRight \/ pos = BottomLeft)
  end.
Proof.
  destruct pos; vm_compute; repeat split; auto.
Qed.

Lemma offsets_by_corner :
  List.map (fun pos => (hidden_y (chatContainerVariants pos),
                        exit_y (chatContainerVariants pos)))
           [BottomRight; BottomLeft; TopRight; TopLeft] =
  [(20, 15); (20, 15); (-20, -15); (-20, -15)]%Z.
Proof. reflexivity. Qed.

(** *** Sending *)

(** C6: the send action changes neither the composer text nor any other
    hook state nor the props, whether or not the link could be built. *)
Theorem send_changes_nothing (p : WhatsAppWidgetProps) (h : Hooks) (w : Instance) :
  fst (handleWhatsAppClick p h) = h /\
  hooks (step w ClickSend) = hooks w /\
  props (step w ClickSend) = props w.
Proof.
  repeat split; cbn [step];
    destruct (attached w); try reflexivity;
    destruct (panelClosure w); reflexivity.
Qed.

(** What a send does instead: one request to open the link in a new
    browsing context, or an uncaught [URIError]. *)
Lemma send_log (w : Instance) :
  attached w = true -> panelRendered (props w) (hooks w) = true ->
  log (step w ClickSend) =
  log w ++
  [match buildDeepLink (phoneNumber (props w)) (message (hooks w)) with
   | Normal url => WindowOpen url (lit "_blank")
   | Throw e => UncaughtError e
   end].
Proof.
  intros Ha Hp. cbn [step]. unfold panelClosure. rewrite Ha, Hp.
  unfold send, handleWhatsAppClick, emit. simpl.
  destruct (buildDeepLink (phoneNumber (props w)) (message (hooks w))); reflexivity.
Qed.

(** *** The composer *)

Lemma panelClosure_open (w : Instance) :
  panelRendered (props w) (hooks w) = true ->
  panelClosure w = Some (props w, hooks w).
Proof. intros H. unfold panelClosure. now rewrite H. Qed.

Lemma displayedValue_open (w : Instance) :
  attached w = true -> panelRendered (props w) (hooks w) = true ->
  displayedValue w = Some (message (hooks w)).
Proof.
  intros Ha Hp. unfold displayedValue. rewrite Ha, (panelClosure_open w Hp).
  cbn [fst snd]. rewrite valueAttribute_spec.
  rewrite panelRendered_spec in Hp. now rewrite Hp.
Qed.

(** C8, as stated, fails: while a closed panel plays its exit animation
    its textarea is still on screen and takes input; typing there stores
    the new text, but the field keeps the value of the last render that
    contained it. *)
Lemma exiting_textarea_shows_stale_text :
  let w := run (create demoProps)
             [RunMountEffects; ClickFloatingButton; ChangeInput (lit "a");
              ClickClose; ChangeInput (lit "ab")] in
  message (hooks w) = lit "ab" /\
  displayedValue w = Some (lit "a") /\
  displayedValue w <> Some (message (hooks w)).
Proof.
  split; [reflexivity|]. split; [reflexivity|].
  vm_compute. discriminate.
Qed.

(** C8 (amended): the change handler stores exactly the string it is
    given, whatever the string, and leaves the other hooks and the props
    alone; while the panel is open ([mounted && isOpen]) the textarea shows
    the stored string, before and after a change. *)
Theorem setMessage_stores_exactly (h : Hooks) (w : Instance) (newText : JSString) :
  message (onChange newText h) = newText /\
  isOpen (onChange newText h) = isOpen h /\
  mounted (onChange newText h) = mounted h /\
  props (step w (ChangeInput newText)) = props w /\
  hooks (step w (ChangeInput newText)) =
    (if attached w && panelInDOM w then onChange newText (hooks w) else hooks w) /\
  (attached w = true -> panelRendered (props w) (hooks w) = true ->
   displayedValue w = Some (message (hooks w)) /\
   message (hooks (step w (ChangeInput newText))) = newText /\
   displayedValue (step w (ChangeInput newText)) = Some newText).
Proof.
  split; [reflexivity|]. split; [reflexivity|]. split; [reflexivity|].
  split; [|split].
  - cbn [step]. destruct (attached w && panelInDOM w);
      [apply update_props | reflexivity].
  - cbn [step]. destruct (attached w && panelInDOM w);
      [apply update_hooks | reflexivity].
  - intros Ha Hp. split; [now apply displayedValue_open|].
    assert (E : step w (ChangeInput newText) = update (onChange newText) w).
    { cbn [step]. unfold panelInDOM. now rewrite Ha, (panelClosure_open w Hp). }
    rewrite E, update_hooks. split; [reflexivity|].
    rewrite displayedValue_open.
    + now rewrite update_hooks.
    + now rewrite update_attached.
    + rewrite update_props, update_hooks, panelRendered_spec.
      rewrite panelRendered_spec in Hp. exact Hp.
Qed.

Lemma setMessage_stores_exactly_witness :
  let w := run (create demoProps) [RunMountEffects; ClickFloatingButton] in
  attached w = true /\
  panelRendered (props w) (hooks w) = true /\
  displayedValue w = Some (message (hooks w)) /\
  message (hooks (step w (ChangeInput (lit "")))) = lit "" /\
  displayedValue (step w (ChangeInput (lit ""))) = Some (lit "").
Proof.
  split; [reflexivity|]. split; [reflexivity|].
  apply (proj2 (proj2 (proj2 (proj2 (proj2
           (setMessage_stores_exactly
              (hooks (create demoProps))
              (run (create demoProps) [RunMountEffects; ClickFloatingButton])
              (lit ""))))))); reflexivity.
Defined.

(** *** The avatar *)

Lemma charAt_0 (s : JSString) : charAt s 0 = firstn 1 s.
Proof. destruct s; reflexivity. Qed.

(** C9, as stated, fails: a logo that is supplied as the empty string is
    falsy, and the initial is rendered. *)
Lemma empty_logo_renders_initial :
  renderAvatar
    {| phoneNumber := lit "15551234567"; defaultMessage := None;
       position := None; businessName := lit "Acme";
       businessLogo := Some (lit ""); primaryColor := None;
       welcomeMessage := None; inputPlaceholder := None;
       initiallyOpen := None; className := None; showTimestamp := None |} =
  AvatarInitial (lit "A") (lit "#25D366").
Proof. reflexivity. Qed.

(** C9 (amended): when no logo is supplied, or the supplied logo is the
    empty string, the avatar shows the first code unit of the business
    name unchanged (nothing for an empty name); when a non-empty logo is
    supplied the image is rendered. *)
Theorem avatar_rendering (p : WhatsAppWidgetProps) :
  renderAvatar p =
  match businessLogo p with
  | Some (c :: logo) => AvatarImage (c :: logo) (businessName p)
  | _ => AvatarInitial (firstn 1 (businessName p)) (primaryColor' p)
  end.
Proof.
  unfold renderAvatar. rewrite charAt_0.
  destruct (businessLogo p) as [[|c logo]|]; reflexivity.
Qed.

(** *** How one event changes the hooks *)

Lemma runMountEffects_hooks w :
  hooks (runMountEffects w) = setMounted true (hooks w).
Proof.
  unfold runMountEffects. now rewrite update_hooks, focusEffect_hooks.
Qed.

Lemma step_hooks (w : Instance) (e : Event) :
  hooks (step w e) =
  match e with
  | RunMountEffects =>
      if attached w && negb (mounted (hooks w))
      then setMounted true (hooks w) else hooks w
  | ClickFloatingButton =>
      if attached w && mounted (hooks w) then toggleOpen (hooks w) else hooks w
  | ClickClose =>
      if attached w && panelInDOM w then close (hooks w) else hooks w
  | ChangeInput value =>
      if attached w && panelInDOM w then onChange value (hooks w) else hooks w
  | _ => hooks w
  end.
Proof.
  destruct e; cbn [step];
    try match goal with
        | |- context [if ?b then _ else _] => destruct b
        end;
    try match goal with
        | |- context [match panelClosure ?w with _ => _ end] =>
            destruct (panelClosure w)
        end;
    rewrite ?runMountEffects_hooks, ?update_hooks, ?send_hooks, ?commit_hooks;
    reflexivity.
Qed.

Lemma focusEffect_attached w : attached (focusEffect w) = attached w.
Proof. unfold focusEffect. destruct (isOpen (hooks w) && inputRef w); reflexivity. Qed.

Lemma step_attached (w : Instance) (e : Event) :
  attached (step w e) =
  match e with
  | Unmount => if attached w then false else attached w
  | _ => attached w
  end.
Proof.
  destruct e; cbn [step];
    try match goal with
        | |- context [if ?b then _ else _] => destruct b eqn:Hb
        end;
    try match goal with
        | |- context [match panelClosure ?w with _ => _ end] =>
            destruct (panelClosure w)
        end;
    unfold runMountEffects, send, handleWhatsAppClick;
    cbn [attached emit elapse unmount setInputRef setProps setExiting];
    rewrite ?update_attached, ?commit_attached, ?focusEffect_attached;
    cbn [attached setProps setExiting setInputRef];
    first [reflexivity | exact Hb].
Qed.

Lemma step_mounted (w : Instance) (e : Event) :
  mounted (hooks w) = true -> mounted (hooks (step w e)) = true.
Proof.
  intros H. rewrite step_hooks.
  destruct e; try assumption;
    match goal with
    | |- context [if ?b then _ else _] => destruct b
    end; first [assumption | reflexivity].
Qed.

Lemma run_mounted (es : list Event) (w : Instance) :
  mounted (hooks w) = true -> mounted (hooks (run w es)) = true.
Proof.
  revert w. induction es as [|e es IH]; intros w H; [exact H|].
  simpl. apply IH. now apply step_mounted.
Qed.

(** *** The mounted gate *)

(** C7: in every reachable state the panel is in the render output
    exactly when [mounted && isOpen]; while [mounted] is false the
    component renders nothing at all; and once [mounted] is true it stays
    true whatever happens next. *)
Theorem panel_gate_and_latch (p : WhatsAppWidgetProps) (es1 es2 : list Event) :
  let w := run (create p) es1 in
  panelRendered (props w) (hooks w) = mounted (hooks w) && isOpen (hooks w) /\
  (mounted (hooks w) = false -> render (props w) (hooks w) = None) /\
  (mounted (hooks w) = true -> mounted (hooks (run w es2)) = true).
Proof.
  intros w. split; [apply panelRendered_spec|]. split.
  - intros H. unfold render. now rewrite H.
  - apply run_mounted.
Qed.

Lemma panel_gate_and_latch_witness :
  mounted (hooks (run (create demoProps) [])) = false /\
  render (props (run (create demoProps) [])) (hooks (run (create demoProps) [])) = None /\
  mounted (hooks (run (create demoProps) [RunMountEffects])) = true /\
  mounted (hooks (run (run (create demoProps) [RunMountEffects])
                      [ClickFloatingButton; ClickClose; Unmount])) = true.
Proof.
  split; [reflexivity|]. split.
  - apply (proj1 (proj2 (panel_gate_and_latch demoProps [] []))). reflexivity.
  - split; [reflexivity|].
    apply (proj2 (proj2 (panel_gate_and_latch demoProps [RunMountEffects]
                           [ClickFloatingButton; ClickClose; Unmount]))).
    reflexivity.
Defined.

(** The first commit is what sets the latch. *)
Lemma mount_effects_set_latch (p : WhatsAppWidgetProps) :
  mounted (hooks (create p)) = false /\
  mounted (hooks (step (create p) RunMountEffects)) = true.
Proof.
  split; [reflexivity|]. now rewrite step_hooks.
Qed.

(** *** Seeds of the hook state *)

Lemma step_seed_independent (f : WhatsAppWidgetProps -> WhatsAppWidgetProps)
  (w1 w2 : Instance) (e : Event) :
  hooks w1 = hooks w2 -> attached w1 = attached w2 ->
  isExiting w1 = isExiting w2 ->
  hooks (step w1 (mapProps f e)) = hooks (step w2 e) /\
  attached (step w1 (mapProps f e)) = attached (step w2 e) /\
  isExiting (step w1 (mapProps f e)) = isExiting (step w2 e).
Proof.
  destruct w1 as [p1 [o1 m1 mt1] r1 t1 a1 l1 x1].
  destruct w2 as [p2 [o2 m2 mt2] r2 t2 a2 l2 x2].
  unfold isExiting. cbn [hooks attached exiting].
  intros Hh Ha Hx. injection Hh as -> -> ->. subst a2.
  destruct e; destruct a1, mt2, o2, r1, r2, x1, x2;
    try discriminate Hx; repeat split.
Qed.

Lemma run_seed_independent (f : WhatsAppWidgetProps -> WhatsAppWidgetProps)
  (es : list Event) (w1 w2 : Instance) :
  hooks w1 = hooks w2 -> attached w1 = attached w2 ->
  isExiting w1 = isExiting w2 ->
  hooks (run w1 (List.map (mapProps f) es)) = hooks (run w2 es).
Proof.
  revert w1 w2. induction es as [|e es IH]; intros w1 w2 Hh Ha Hx; [exact Hh|].
  simpl. destruct (step_seed_independent f w1 w2 e Hh Ha Hx) as [Hh' [Ha' Hx']].
  now apply IH.
Qed.

(** C10: [initiallyOpen] and [defaultMessage] give [isOpen] and [message]
    their first values; new props leave the hooks as they are, and
    replacing the two seeds in every later set of props by any other
    values leads to the same hooks. *)
Theorem seeds_initialise_only (p q : WhatsAppWidgetProps) (w : Instance)
  (es : list Event) (o : option bool) (m : option JSString) :
  isOpen (hooks (create p)) =
    match initiallyOpen p with Some b => b | None => false end /\
  message (hooks (create p)) =
    match defaultMessage p with Some text => text | None => [] end /\
  hooks (step w (ReceiveProps q)) = hooks w /\
  hooks (run w (List.map (mapProps (withSeeds o m)) es)) = hooks (run w es).
Proof.
  split; [reflexivity|]. split; [reflexivity|]. split.
  - now rewrite step_hooks.
  - now apply run_seed_independent.
Qed.

Example seeds_after_mount :
  let w := run (create demoProps) [RunMountEffects; ClickFloatingButton;
                                   ChangeInput (lit "Hello")] in
  let w' := step w (ReceiveProps (withSeeds (Some false) (Some (lit "Bye")) demoProps)) in
  initiallyOpen (props w') = Some false /\
  defaultMessage (props w') = Some (lit "Bye") /\
  isOpen (hooks w') = true /\
  message (hooks w') = lit "Hello".
Proof. repeat split. Qed.

(** *** The deferred focus *)

Lemma commit_timers_bounded prev w :
  timersBounded w -> timersBounded (commit prev w).
Proof.
  unfold timersBounded, commit, focusEffect. intros H.
  destruct (panelRendered (props w) (hooks w));
    [|destruct (panelRendered (props w) prev)];
    cbn [hooks setInputRef setExiting];
    destruct (Bool.eqb (isOpen prev) (isOpen (hooks w))); try exact H;
    match goal with |- context [if ?b then _ else _] => destruct b end;
    try exact H; cbn [timers setTimeout setInputRef setExiting];
    apply Forall_app; split; try exact H; repeat constructor.
Qed.

Lemma focusEffect_timers_bounded w :
  timersBounded w -> timersBounded (focusEffect w).
Proof.
  unfold timersBounded, focusEffect. intros H.
  destruct (isOpen (hooks w) && inputRef w); [|exact H].
  cbn [timers setTimeout]. apply Forall_app. split; [exact H | repeat constructor].
Qed.

Lemma elapse_timers_bounded ms w :
  timersBounded w -> timersBounded (elapse ms w).
Proof.
  unfold timersBounded. cbn [timers elapse]. intros H.
  apply Forall_map. apply Forall_forall. intros t Ht.
  apply filter_In in Ht. destruct Ht as [Ht _].
  rewrite Forall_forall in H. specialize (H t Ht). lia.
Qed.

Lemma step_timers_bounded w e : timersBounded w -> timersBounded (step w e).
Proof.
  intros H.
  assert (Hh : forall h v, timersBounded v -> timersBounded (setHooks h v))
    by (intros h v Hv; exact Hv).
  assert (Hu : forall f v, timersBounded v -> timersBounded (update f v))
    by (intros f v Hv; unfold update; auto using commit_timers_bounded).
  destruct e; cbn [step];
    try match goal with
        | |- context [if ?b then _ else _] => destruct b
        end;
    try match goal with
        | |- context [match panelClosure ?v with _ => _ end] =>
            destruct (panelClosure v)
        end;
    try exact H.
  - unfold runMountEffects. auto using focusEffect_timers_bounded.
  - auto.
  - auto.
  - auto.
  - apply commit_timers_bounded. exact H.
  - now apply elapse_timers_bounded.
Qed.

Lemma step_refDetached w e : refDetached w -> refDetached (step w e).
Proof.
  unfold refDetached. intros H Ha. pose proof (step_attached w e) as Hs.
  destruct (attached w) eqn:Hw.
  - destruct e; try congruence.
    cbn [step]. rewrite Hw. reflexivity.
  - specialize (H eq_refl).
    destruct e; cbn [step]; rewrite ?Hw; cbn [andb]; try exact H.
Qed.

Lemma reachable_invariant (p : WhatsAppWidgetProps) (es : list Event) :
  timersBounded (run (create p) es) /\ refDetached (run (create p) es).
Proof.
  assert (G : forall w, timersBounded w /\ refDetached w ->
                        timersBounded (run w es) /\ refDetached (run w es)).
  { induction es as [|e es IH]; intros w [H1 H2]; [now split|].
    simpl. apply IH. split; [now apply step_timers_bounded | now apply step_refDetached]. }
  apply G. split; [constructor | discriminate].
Qed.



(** Counting callbacks over one advance of the clock. *)
Lemma count_callbacks (w : Instance) (due : list nat) :
  List.length (filter isTimerCallback (flat_map (fun _ => focusCallback w) due)) =
  List.length due.
Proof.
  induction due as [|t due IH]; [reflexivity|].
  cbn [flat_map]. rewrite filter_app, length_app, IH. unfold focusCallback.
  destruct (inputRef w); reflexivity.
Qed.

Lemma count_focus (w : Instance) (due : list nat) :
  List.length (filter isFocusInput (flat_map (fun _ => focusCallback w) due)) =
  if inputRef w then List.length due else 0.
Proof.
  induction due as [|t due IH]; [now destruct (inputRef w)|].
  cbn [flat_map]. rewrite filter_app, length_app, IH. unfold focusCallback.
  destruct (inputRef w); reflexivity.
Qed.

Lemma partition_lengths (f : nat -> bool) (l : list nat) :
  List.length (filter f l) + List.length (filter (fun t => negb (f t)) l) =
  List.length l.
Proof.
  induction l as [|t l IH]; [reflexivity|].
  simpl. destruct (f t); simpl; lia.
Qed.

Lemma elapse_callbacks ms w :
  callbackRuns (elapse ms w) + List.length (timers (elapse ms w)) =
  callbackRuns w + List.length (timers w).
Proof.
  unfold callbackRuns. cbn [log timers elapse].
  rewrite filter_app, length_app, count_callbacks, length_map.
  pose proof (partition_lengths (fun t => Nat.leb t ms) (timers w)). lia.
Qed.


Lemma elapse_all_due ms w :
  Forall (fun t => t <= ms) (timers w) -> timers (elapse ms w) = [].
Proof.
  intros H. cbn [timers elapse].
  induction (timers w) as [|t l IH]; [reflexivity|].
  inversion H as [|? ? Ht Hl]; subst. simpl.
  destruct (Nat.leb_spec t ms); [|lia]. simpl. now apply IH.
Qed.



(** An open transition on a mounted, closed widget schedules one focus
    callback, [focusDelay] milliseconds ahead. *)
Lemma open_schedules_focus w :
  attached w = true -> mounted (hooks w) = true -> isOpen (hooks w) = false ->
  timers (step w ClickFloatingButton) = timers w ++ [focusDelay].
Proof.
  destruct w as [p [o msg mt] r ts a l]. cbn [attached hooks mounted isOpen timers].
  intros -> -> ->. reflexivity.
Qed.



(** *** How one event changes the timers and the log *)

Lemma step_log (w : Instance) (e : Event) :
  log (step w e) =
  log w ++
  match e with
  | ClickSend =>
      if attached w
      then match panelClosure w with
           | Some c =>
               [match buildDeepLink (phoneNumber (fst c)) (message (snd c)) with
                | Normal url => WindowOpen url (lit "_blank")
                | Throw err => UncaughtError err
                end]
           | None => []
           end
      else []
  | Elapse ms =>
      flat_map (fun _ => focusCallback w)
               (filter (fun t => Nat.leb t ms) (timers w))
  | _ => []
  end.
Proof.
  destruct e; cbn [step];
    try match goal with
        | |- context [if ?b then _ else _] => destruct b
        end;
    try match goal with
        | |- context [match panelClosure ?v with _ => _ end] =>
            destruct (panelClosure v) as [c|]
        end;
    unfold runMountEffects;
    rewrite ?update_log, ?commit_log, ?app_nil_r; try reflexivity.
  - unfold focusEffect. now destruct (isOpen (hooks w) && inputRef w).
  - unfold send, handleWhatsAppClick, emit. cbn [log].
    now destruct (buildDeepLink (phoneNumber (fst c)) (message (snd c))).
Qed.

Lemma step_timers (w : Instance) (e : Event) :
  timers (step w e) =
  match e with
  | Elapse ms =>
      List.map (fun t => t - ms)
               (filter (fun t => negb (Nat.leb t ms)) (timers w))
  | ClickFloatingButton =>
      if attached w && mounted (hooks w) && negb (isOpen (hooks w))
      then timers w ++ [focusDelay] else timers w
  | RunMountEffects =>
      if attached w && negb (mounted (hooks w)) && isOpen (hooks w) && inputRef w
      then timers w ++ [focusDelay] else timers w
  | _ => timers w
  end.
Proof.
  destruct w as [p [o msg mt] r ts a l x].
  destruct e; try reflexivity;
    destruct a, mt, o, r, x; reflexivity.
Qed.

Lemma step_inputRef_before_mount (w : Instance) (e : Event) :
  refNullBeforeMount w -> refNullBeforeMount (step w e).
Proof.
  unfold refNullBeforeMount.
  destruct w as [p [o msg mt] r ts a l x]. cbn [hooks mounted inputRef].
  intros H. destruct e; destruct a, mt, o, r, x; cbn; intros E;
    first [discriminate E | reflexivity | exact (H eq_refl)].
Qed.

Lemma reachable_refNullBeforeMount (p : WhatsAppWidgetProps) (es : list Event) :
  refNullBeforeMount (run (create p) es).
Proof.
  assert (G : forall w, refNullBeforeMount w -> refNullBeforeMount (run w es)).
  { induction es as [|e es IH]; intros w H; [exact H|].
    simpl. apply IH. now apply step_inputRef_before_mount. }
  apply G. intros _. reflexivity.
Qed.

Lemma count_callbacks_none (w : Instance) (e : Event) :
  (forall ms, e <> Elapse ms) ->
  callbackRuns (step w e) = callbackRuns w /\ focusCalls (step w e) = focusCalls w.
Proof.
  intros H. unfold callbackRuns, focusCalls. rewrite step_log.
  destruct e; rewrite ?app_nil_r; try (split; reflexivity).
  - destruct (attached w); rewrite ?app_nil_r; [|split; reflexivity].
    destruct (panelClosure w) as [c|]; rewrite ?app_nil_r; [|split; reflexivity].
    rewrite !filter_app, !length_app.
    destruct (buildDeepLink (phoneNumber (fst c)) (message (snd c)));
      simpl; split; lia.
  - exfalso. exact (H ms eq_refl).
Qed.

(** *** Focus callbacks and button clicks *)

Lemma step_callbacks_budget (w : Instance) (e : Event) :
  refNullBeforeMount w ->
  callbackRuns (step w e) + List.length (timers (step w e)) <=
  callbackRuns w + List.length (timers w) + (if isClickFloatingButton e then 1 else 0).
Proof.
  intros Hn. destruct e;
    try (match goal with
         | |- context [step ?w ?e] =>
             destruct (@count_callbacks_none w e ltac:(discriminate)) as [-> _]
         end;
         rewrite step_timers).
  - destruct (attached w && negb (mounted (hooks w)) && isOpen (hooks w) && inputRef w) eqn:E;
      [|cbn; lia].
    exfalso. apply andb_true_iff in E. destruct E as [E Hr].
    apply andb_true_iff in E. destruct E as [E _].
    apply andb_true_iff in E. destruct E as [_ Hm].
    apply negb_true_iff in Hm. rewrite (Hn Hm) in Hr. discriminate.
  - destruct (attached w && mounted (hooks w) && negb (isOpen (hooks w)));
      rewrite ?length_app; cbn; lia.
  - cbn; lia.
  - cbn; lia.
  - cbn; lia.
  - cbn; lia.
  - cbn; lia.
  - cbn [step isClickFloatingButton]. pose proof (elapse_callbacks ms w). lia.
  - cbn; lia.
Qed.

Lemma clicks_cons e es :
  clicks (e :: es) = (if isClickFloatingButton e then 1 else 0) + clicks es.
Proof. unfold clicks. simpl. now destruct (isClickFloatingButton e). Qed.

Lemma focusCalls_le_callbackRuns_step (w : Instance) (e : Event) :
  focusCalls w <= callbackRuns w -> focusCalls (step w e) <= callbackRuns (step w e).
Proof.
  intros H. destruct e;
    try (match goal with
         | |- context [step ?w ?e] =>
             destruct (@count_callbacks_none w e ltac:(discriminate)) as [-> ->]
         end; exact H).
  unfold focusCalls, callbackRuns in *. rewrite step_log.
  rewrite !filter_app, !length_app, count_callbacks, count_focus.
  destruct (inputRef w); lia.
Qed.

Lemma run_callbacks_budget (es : list Event) (w : Instance) :
  refNullBeforeMount w -> focusCalls w <= callbackRuns w ->
  focusCalls (run w es) <= callbackRuns (run w es) /\
  callbackRuns (run w es) + List.length (timers (run w es)) <=
  callbackRuns w + List.length (timers w) + clicks es.
Proof.
  revert w. induction es as [|e es IH]; intros w Hn Hf.
  - cbn. split; [exact Hf | lia].
  - cbn [run fold_left].
    destruct (IH (step w e) (@step_inputRef_before_mount w e Hn)
                 (@focusCalls_le_callbackRuns_step w e Hf)) as [A B].
    fold (run (step w e) es) in *.
    split; [exact A|].
    pose proof (@step_callbacks_budget w e Hn). rewrite clicks_cons. lia.
Qed.

(** Every focus callback goes back to a click on the floating button:
    callbacks run or pending never outnumber the clicks, and the input is
    focused at most once per callback. *)
Theorem callbacks_bounded_by_clicks (p : WhatsAppWidgetProps) (es : list Event) :
  let w := run (create p) es in
  focusCalls w <= callbackRuns w /\
  callbackRuns w + List.length (timers w) <= clicks es.
Proof.
  intros w. unfold w.
  destruct (@run_callbacks_budget es (create p)) as [A B].
  - intros _. reflexivity.
  - cbn. lia.
  - split; [exact A | exact B].
Qed.

Lemma run_isOpen_kept (es : list Event) (w : Instance) :
  forallb (fun e => negb (isClickFloatingButton e || isClickClose e)) es = true ->
  isOpen (hooks (run w es)) = isOpen (hooks w).
Proof.
  revert w. induction es as [|e es IH]; intros w H; [reflexivity|].
  cbn [forallb] in H. apply andb_true_iff in H. destruct H as [He Hes].
  cbn [run fold_left]. fold (run (step w e) es). rewrite (IH _ Hes), step_hooks.
  destruct e; try reflexivity; try discriminate He;
    match goal with |- context [if ?b then _ else _] => destruct b end; reflexivity.
Qed.

Lemma clicks_zero (es : list Event) :
  forallb (fun e => negb (isClickFloatingButton e || isClickClose e)) es = true ->
  clicks es = 0.
Proof.
  induction es as [|e es IH]; [reflexivity|].
  cbn [forallb]. intros H. apply andb_true_iff in H. destruct H as [He Hes].
  rewrite clicks_cons, (IH Hes). now destruct e.
Qed.

(** A widget that starts open shows its panel from the first commit on,
    but the deferred focus is not scheduled for it: the effect runs while
    the ref is still [null] and does not run again.  Until the floating
    button or the close button is clicked the panel stays rendered and the
    input is never focused. *)
Theorem initially_open_never_focused (p : WhatsAppWidgetProps) (es : list Event) :
  initiallyOpen p = Some true ->
  forallb (fun e => negb (isClickFloatingButton e || isClickClose e)) es = true ->
  let w := run (create p) (RunMountEffects :: es) in
  panelRendered (props w) (hooks w) = true /\
  timers w = [] /\ callbackRuns w = 0 /\ focusCalls w = 0.
Proof.
  intros Hp Hes w.
  pose proof (@run_callbacks_budget (RunMountEffects :: es) (create p)) as B.
  destruct B as [A B]; [intros _; reflexivity | cbn; lia |].
  fold w in A, B. rewrite clicks_cons, (clicks_zero _ Hes) in B.
  change (callbackRuns (create p)) with 0 in B.
  change (List.length (timers (create p))) with 0 in B.
  cbn [isClickFloatingButton] in B.
  split.
  - rewrite panelRendered_spec. unfold w. cbn [run fold_left].
    fold (run (step (create p) RunMountEffects) es).
    rewrite (run_isOpen_kept _ _ Hes), run_mounted.
    + rewrite step_hooks. cbn. unfold initiallyOpen'. now rewrite Hp.
    + now rewrite step_hooks.
  - destruct (timers w); [|cbn [List.length] in B; lia]. repeat split; lia.
Qed.

Lemma initially_open_never_focused_witness :
  let p := withSeeds (Some true) None demoProps in
  let es := [ChangeInput (lit "Hello"); Elapse 1000; ClickSend] in
  let w := run (create p) (RunMountEffects :: es) in
  initiallyOpen p = Some true /\
  forallb (fun e => negb (isClickFloatingButton e || isClickClose e)) es = true /\
  panelRendered (props w) (hooks w) = true /\
  timers w = [] /\ callbackRuns w = 0 /\ focusCalls w = 0.
Proof.
  split; [reflexivity|]. split; [reflexivity|].
  apply (@initially_open_never_focused (withSeeds (Some true) None demoProps)
           [ChangeInput (lit "Hello"); Elapse 1000; ClickSend]); reflexivity.
Defined.

(** *** The delay *)

Lemma elapse_none_due ms (w : Instance) :
  Forall (fun t => ms < t) (timers w) ->
  log (elapse ms w) = log w /\
  timers (elapse ms w) = List.map (fun t => t - ms) (timers w).
Proof.
  intros H. cbn [log timers elapse].
  induction (timers w) as [|t l IH]; [now rewrite app_nil_r|].
  inversion H as [|? ? Ht Hl]; subst. destruct (IH Hl) as [IH1 IH2].
  cbn [filter]. destruct (Nat.leb_spec t ms); [lia|]. cbn [negb List.map].
  split; [exact IH1 | now rewrite IH2].
Qed.

Lemma elapsed_cons e es :
  elapsed (e :: es) = (match e with Elapse ms => ms | _ => 0 end) + elapsed es.
Proof. destruct e; reflexivity. Qed.

(** No focus callback runs early: a pending callback with [t] milliseconds
    left, and any callback scheduled later, stays pending while less than
    [t], respectively less than [focusDelay], milliseconds pass. *)
Theorem no_callback_before_delay (es : list Event) (w : Instance) :
  elapsed es < focusDelay ->
  Forall (fun t => elapsed es < t) (timers w) ->
  callbackRuns (run w es) = callbackRuns w /\
  focusCalls (run w es) = focusCalls w.
Proof.
  revert w. induction es as [|e es IH]; intros w Hd Ht; [now split|].
  cbn [run fold_left]. fold (run (step w e) es).
  rewrite elapsed_cons in Hd.
  assert (Hd' : elapsed es < focusDelay) by lia.
  assert (Ht' : Forall (fun t => elapsed es < t) (timers w)).
  { eapply Forall_impl; [|exact Ht]. cbn beta. intros t Hlt.
    rewrite elapsed_cons in Hlt. lia. }
  assert (S : callbackRuns (step w e) = callbackRuns w /\
              focusCalls (step w e) = focusCalls w /\
              Forall (fun t => elapsed es < t) (timers (step w e))).
  { destruct e;
      try (match goal with
           | |- context [step w ?e] =>
               destruct (@count_callbacks_none w e ltac:(discriminate)) as [Hc Hf]
           end;
           split; [exact Hc|]; split; [exact Hf|]; rewrite step_timers;
           try exact Ht').
    - destruct (attached w && negb (mounted (hooks w)) && isOpen (hooks w) && inputRef w);
        [|exact Ht'].
      apply Forall_app. split; [exact Ht' | constructor; [exact Hd' | constructor]].
    - destruct (attached w && mounted (hooks w) && negb (isOpen (hooks w)));
        [|exact Ht'].
      apply Forall_app. split; [exact Ht' | constructor; [exact Hd' | constructor]].
    - assert (Hn : Forall (fun t => ms < t) (timers w)).
      { eapply Forall_impl; [|exact Ht]. cbn beta. intros t Hlt.
        rewrite elapsed_cons in Hlt. lia. }
      destruct (@elapse_none_due ms w Hn) as [El Et]. cbn [step].
      unfold callbackRuns, focusCalls. rewrite El, Et.
      split; [reflexivity|]. split; [reflexivity|].
      apply Forall_map. eapply Forall_impl; [|exact Ht]. cbn beta. intros t Hlt.
      rewrite elapsed_cons in Hlt. lia. }
  destruct S as [Sc [Sf St]].
  destruct (IH (step w e) Hd' St) as [A B]. split; congruence.
Qed.

Lemma no_callback_before_delay_witness :
  let w := run (create demoProps) [RunMountEffects; ClickFloatingButton; Elapse 100] in
  let es := [ClickClose; Elapse 150; ClickFloatingButton; Elapse 49] in
  elapsed es < focusDelay /\
  Forall (fun t => elapsed es < t) (timers w) /\
  callbackRuns (run w es) = callbackRuns w /\
  focusCalls (run w es) = focusCalls w.
Proof.
  assert (H1 : elapsed [ClickClose; Elapse 150; ClickFloatingButton; Elapse 49]
               < focusDelay) by (cbn; unfold focusDelay; lia).
  assert (H2 : Forall (fun t => elapsed [ClickClose; Elapse 150;
                                          ClickFloatingButton; Elapse 49] < t)
                 (timers (run (create demoProps)
                            [RunMountEffects; ClickFloatingButton; Elapse 100])))
    by (repeat constructor; cbn; lia).
  split; [exact H1|]. split; [exact H2|].
  exact (@no_callback_before_delay _ _ H1 H2).
Defined.

(** Opening the chat with the floating button and leaving it alone for
    [focusDelay] milliseconds focuses the input: the new callback and every
    callback still pending run, each with a focus call. *)
Theorem open_then_wait_focuses (p : WhatsAppWidgetProps) (es : list Event) :
  let w := run (create p) es in
  attached w = true -> mounted (hooks w) = true -> isOpen (hooks w) = false ->
  let w' := run w [ClickFloatingButton; Elapse focusDelay] in
  isOpen (hooks w') = true /\
  timers w' = [] /\
  focusCalls w' = focusCalls w + List.length (timers w) + 1.
Proof.
  intros w Ha Hm Ho w'.
  destruct (reachable_invariant p es) as [Hb _]. fold w in Hb.
  set (u := step w ClickFloatingButton).
  assert (Ut : timers u = timers w ++ [focusDelay]) by (now apply open_schedules_focus).
  assert (Ul : log u = log w) by (unfold u; now rewrite step_log, app_nil_r).
  assert (Uh : isOpen (hooks u) = true).
  { unfold u. rewrite step_hooks, Ha, Hm. cbn. now rewrite Ho. }
  assert (Ur : inputRef u = true).
  { unfold u. destruct w as [q [o msg mt] r ts a l].
    cbn in Ha, Hm, Ho. subst. reflexivity. }
  assert (Ub : Forall (fun t => t <= focusDelay) (timers u)).
  { rewrite Ut. apply Forall_app. split; [exact Hb | repeat constructor]. }
  unfold w'. cbn [run fold_left]. fold u. split; [exact Uh|]. split.
  - now apply elapse_all_due.
  - unfold focusCalls. cbn [step log elapse]. rewrite filter_app, length_app, count_focus, Ur.
    assert (F : filter (fun t => Nat.leb t focusDelay) (timers u) = timers u).
    { apply forallb_filter_id. apply forallb_forall. intros t Ht.
      rewrite Forall_forall in Ub. apply Nat.leb_le. now apply Ub. }
    rewrite F, Ut, Ul, length_app. cbn. lia.
Qed.

Lemma open_then_wait_focuses_witness :
  let w := run (create demoProps) [RunMountEffects] in
  let w' := run w [ClickFloatingButton; Elapse focusDelay] in
  attached w = true /\ mounted (hooks w) = true /\ isOpen (hooks w) = false /\
  isOpen (hooks w') = true /\ timers w' = [] /\
  focusCalls w' = focusCalls w + List.length (timers w) + 1.
Proof.
  split; [reflexivity|]. split; [reflexivity|]. split; [reflexivity|].
  apply (@open_then_wait_focuses demoProps [RunMountEffects]); reflexivity.
Defined.

(** Reopening before a pending focus callback has run does not replace
    it: every open-and-close cycle leaves one more callback pending. *)
Theorem toggling_piles_up_callbacks (n : nat) (w : Instance) :
  attached w = true -> mounted (hooks w) = true -> isOpen (hooks w) = false ->
  timers (run w (toggles n)) = timers w ++ repeat focusDelay n /\
  hooks (run w (toggles n)) = hooks w.
Proof.
  revert w. induction n as [|n IH]; intros w Ha Hm Ho.
  - cbn. now rewrite app_nil_r.
  - unfold toggles. cbn [repeat List.concat]. fold (toggles n).
    rewrite run_app.
    set (u := run w [ClickFloatingButton; ClickFloatingButton]).
    assert (U : timers u = timers w ++ [focusDelay] /\ hooks u = hooks w /\
                attached u = true).
    { unfold u. destruct w as [q [o msg mt] r ts a l].
      cbn in Ha, Hm, Ho. subst. repeat split. }
    destruct U as [Ut [Uh Ua]].
    destruct (IH u Ua) as [A B]; [now rewrite Uh | now rewrite Uh |].
    split.
    + rewrite A, Ut, <- app_assoc. reflexivity.
    + now rewrite B.
Qed.

Lemma toggling_piles_up_callbacks_witness :
  let w := run (create demoProps) [RunMountEffects] in
  attached w = true /\ mounted (hooks w) = true /\ isOpen (hooks w) = false /\
  timers (run w (toggles 3)) = timers w ++ repeat focusDelay 3 /\
  hooks (run w (toggles 3)) = hooks w.
Proof.
  split; [reflexivity|]. split; [reflexivity|]. split; [reflexivity|].
  apply (@toggling_piles_up_callbacks 3 (run (create demoProps) [RunMountEffects]));
    reflexivity.
Defined.

(** *** The draft *)

(** Only typing changes the draft: closing and reopening the panel,
    sending, new props, timers and unmounting leave [message] as it is. *)
Theorem draft_survives (es : list Event) (w : Instance) :
  forallb (fun e => negb (isChangeInput e)) es = true ->
  message (hooks (run w es)) = message (hooks w).
Proof.
  revert w. induction es as [|e es IH]; intros w H; [reflexivity|].
  cbn [forallb] in H. apply andb_true_iff in H. destruct H as [He Hes].
  cbn [run fold_left]. fold (run (step w e) es). rewrite (IH _ Hes), step_hooks.
  destruct e; try reflexivity; try discriminate He;
    match goal with |- context [if ?b then _ else _] => destruct b end; reflexivity.
Qed.

Lemma draft_survives_witness :
  let w := run (create demoProps)
               [RunMountEffects; ClickFloatingButton; ChangeInput (lit "See you at 5")] in
  let es := [ClickClose; ExitAnimationDone; Elapse 500; ClickFloatingButton;
             ClickSend; ReceiveProps (withSeeds None (Some (lit "Hi")) demoProps)] in
  forallb (fun e => negb (isChangeInput e)) es = true /\
  message (hooks (run w es)) = message (hooks w).
Proof.
  split; [reflexivity|].
  apply (@draft_survives
           [ClickClose; ExitAnimationDone; Elapse 500; ClickFloatingButton;
            ClickSend; ReceiveProps (withSeeds None (Some (lit "Hi")) demoProps)]).
  reflexivity.
Defined.

(** *** Navigation *)

Lemma startsWith_app (a b : JSString) : startsWith (a ++ b) a = true.
Proof.
  induction a as [|c a IH]; [now destruct b|].
  cbn. now rewrite N.eqb_refl, IH.
Qed.

Lemma flat_map_focusCallback_ok (w : Instance) (due : list nat) :
  Forall opensWhatsApp (flat_map (fun _ => focusCallback w) due).
Proof.
  induction due as [|t due IH]; [constructor|].
  cbn [flat_map]. apply Forall_app. split; [|exact IH].
  unfold focusCallback. destruct (inputRef w); repeat constructor.
Qed.

Lemma step_navigation (w : Instance) (e : Event) :
  Forall opensWhatsApp (log w) -> Forall opensWhatsApp (log (step w e)).
Proof.
  intros H. rewrite step_log. apply Forall_app. split; [exact H|].
  destruct e; try constructor.
  - destruct (attached w); [|constructor].
    destruct (panelClosure w) as [c|]; [|constructor].
    constructor; [|constructor].
    unfold buildDeepLink.
    destruct (encodeURIComponent (message (snd c))) as [enc|err]; cbn [bind].
    + split; [reflexivity | apply startsWith_app].
    + exact I.
  - apply flat_map_focusCallback_ok.
Qed.

Lemma step_windowOpens (w : Instance) (e : Event) :
  windowOpens (step w e) <= windowOpens w + (if isClickSend e then 1 else 0).
Proof.
  unfold windowOpens. rewrite step_log, filter_app, length_app.
  destruct e; cbn [isClickSend]; try (cbn; lia).
  - destruct (attached w); [|cbn; lia].
    destruct (panelClosure w) as [c|]; [|cbn; lia].
    destruct (buildDeepLink (phoneNumber (fst c)) (message (snd c))); cbn; lia.
  - assert (Z : forall due : list nat,
               filter isWindowOpen (flat_map (fun _ => focusCallback w) due) = []).
    { induction due as [|t due IH]; [reflexivity|].
      cbn [flat_map]. rewrite filter_app, IH. unfold focusCallback.
      now destruct (inputRef w). }
    rewrite Z. cbn. lia.
Qed.

Lemma sends_cons e es :
  sends (e :: es) = (if isClickSend e then 1 else 0) + sends es.
Proof. unfold sends. simpl. now destruct (isClickSend e). Qed.

(** The component never navigates anywhere else: every [window.open] it
    has asked for is a [https://wa.me/] link with target [_blank], and
    there is at most one per click on the send button. *)
Theorem only_whatsapp_links (p : WhatsAppWidgetProps) (es : list Event) :
  let w := run (create p) es in
  Forall opensWhatsApp (log w) /\ windowOpens w <= sends es.
Proof.
  assert (G : forall es w,
             Forall opensWhatsApp (log w) ->
             Forall opensWhatsApp (log (run w es)) /\
             windowOpens (run w es) <= windowOpens w + sends es).
  { clear es. induction es as [|e es IH]; intros w H.
    - cbn. split; [exact H | lia].
    - cbn [run fold_left]. fold (run (step w e) es).
      destruct (IH (step w e) (@step_navigation w e H)) as [A B].
      split; [exact A|].
      pose proof (step_windowOpens w e). rewrite sends_cons. lia. }
  intros w. destruct (G es (create p)) as [A B]; [constructor|].
  split; [exact A | exact B].
Qed.

(** What a click on the send button does, by the shape of the draft: a
    well-formed draft gives exactly one [window.open] with the link and
    target [_blank]; a draft with an unpaired surrogate gives an uncaught
    [URIError] and no [window.open]. *)
Theorem send_outcome (w : Instance) :
  attached w = true -> panelRendered (props w) (hooks w) = true ->
  if isWellFormed (message (hooks w))
  then exists enc,
         encodeURIComponent (message (hooks w)) = Normal enc /\
         log (step w ClickSend) =
         log w ++ [WindowOpen (lit "https://wa.me/" ++ phoneNumber (props w)
                               ++ lit "?text=" ++ enc) (lit "_blank")]
  else log (step w ClickSend) = log w ++ [UncaughtError URIError] /\
       windowOpens (step w ClickSend) = windowOpens w.
Proof.
  intros Ha Hp. unfold windowOpens.
  rewrite step_log, Ha, (panelClosure_open w Hp). cbn [fst snd].
  unfold buildDeepLink, encodeURIComponent.
  destruct (isWellFormed (message (hooks w))) eqn:Hwf.
  - apply Encode_returns_iff in Hwf. destruct Hwf as [enc Henc].
    exists enc. split; [exact Henc|]. now rewrite Henc.
  - apply Encode_throws_iff in Hwf. rewrite Hwf. cbn [bind]. split; [reflexivity|].
    rewrite filter_app, length_app. cbn. lia.
Qed.

Lemma send_outcome_witness :
  let w := run (create demoProps) [RunMountEffects; ClickFloatingButton;
                                   ChangeInput [72; 0xD800]%N] in
  attached w = true /\ panelRendered (props w) (hooks w) = true /\
  log (step w ClickSend) = log w ++ [UncaughtError URIError] /\
  windowOpens (step w ClickSend) = windowOpens w.
Proof.
  split; [reflexivity|]. split; [reflexivity|].
  apply (@send_outcome (run (create demoProps)
           [RunMountEffects; ClickFloatingButton; ChangeInput [72; 0xD800]%N]));
    reflexivity.
Defined.

(** *** One link, one recipient and one text *)

Lemma Normal_inj {A} (a b : A) : Normal a = Normal b -> a = b.
Proof. now injection 1. Qed.

(** A link determines the phone number and the draft it was built from:
    two sends give the same URL only for the same number and the same
    text. *)
Theorem buildDeepLink_injective (id1 id2 text1 text2 url : JSString) :
  isCodeUnitString text1 = true -> isCodeUnitString text2 = true ->
  buildDeepLink id1 text1 = Normal url ->
  buildDeepLink id2 text2 = Normal url ->
  id1 = id2 /\ text1 = text2.
Proof.
  intros Hs1 Hs2 H1 H2. unfold buildDeepLink in H1, H2.
  apply bind_Normal in H1. destruct H1 as [e1 [He1 E1]].
  apply bind_Normal in H2. destruct H2 as [e2 [He2 E2]].
  apply Normal_inj in E1. apply Normal_inj in E2. rewrite <- E2 in E1. clear E2.
  apply app_inv_head in E1.
  assert (S1 : forallb uriSafe e1 = true) by exact (Encode_uriSafe _ Hs1 He1).
  assert (S2 : forallb uriSafe e2 = true) by exact (Encode_uriSafe _ Hs2 He2).
  assert (Q : forall e, forallb uriSafe e = true ->
                        occurrences 63%N (lit "text=" ++ e) = 0).
  { intros e He. rewrite occurrences_app, (@uriSafe_no_mark 63%N e eq_refl He).
    reflexivity. }
  change (lit "?text=" ++ e1) with (63%N :: lit "text=" ++ e1) in E1.
  change (lit "?text=" ++ e2) with (63%N :: lit "text=" ++ e2) in E1.
  destruct (@split_last_mark 63%N id1 id2 _ _ (Q e1 S1) (Q e2 S2) E1) as [Hid He].
  split; [exact Hid|].
  apply app_inv_head in He. subst e2.
  pose proof (@decode_Encode text1 e1 Hs1 He1) as D1.
  pose proof (@decode_Encode text2 e1 Hs2 He2) as D2.
  congruence.
Qed.

Lemma buildDeepLink_injective_witness :
  isCodeUnitString [72; 105; 0xD83D; 0xDE00]%N = true /\
  buildDeepLink (lit "15551234567") [72; 105; 0xD83D; 0xDE00]%N =
    Normal (lit "https://wa.me/15551234567?text=Hi%F0%9F%98%80") /\
  (lit "15551234567" = lit "15551234567" /\
   [72; 105; 0xD83D; 0xDE00]%N = [72; 105; 0xD83D; 0xDE00]%N).
Proof.
  split; [reflexivity|]. split; [reflexivity|].
  apply (@buildDeepLink_injective (lit "15551234567") (lit "15551234567")
           [72; 105; 0xD83D; 0xDE00]%N [72; 105; 0xD83D; 0xDE00]%N
           (lit "https://wa.me/15551234567?text=Hi%F0%9F%98%80"));
    reflexivity.
Defined.

(** *** The avatar initial of a name that starts outside the BMP *)

(** [charAt(0)] cuts a surrogate pair: when the business name starts with
    a character outside the Basic Multilingual Plane and no logo is given,
    the initial shown is the lone leading surrogate, which is not
    well-formed text. *)
Theorem avatar_initial_splits_pair (p : WhatsAppWidgetProps)
  (c d : CodeUnit) (rest : JSString) :
  businessLogo p = None ->
  businessName p = c :: d :: rest ->
  isLeadingSurrogate c = true -> isTrailingSurrogate d = true ->
  renderAvatar p = AvatarInitial [c] (primaryColor' p) /\
  isWellFormed (c :: d :: rest) = isWellFormed rest /\
  isWellFormed [c] = false.
Proof.
  intros Hl Hn Hc Hd. unfold renderAvatar. rewrite Hl, Hn.
  split; [reflexivity|]. cbn [isWellFormed]. rewrite Hc, Hd. split; reflexivity.
Qed.

Lemma avatar_initial_splits_pair_witness :
  let p := {| phoneNumber := lit "15551234567"; defaultMessage := None;
              position := None; businessName := [0xD83D; 0xDE00; 83]%N;
              businessLogo := None; primaryColor := None;
              welcomeMessage := None; inputPlaceholder := None;
              initiallyOpen := None; className := None; showTimestamp := None |} in
  businessLogo p = None /\
  isLeadingSurrogate 0xD83D%N = true /\ isTrailingSurrogate 0xDE00%N = true /\
  renderAvatar p = AvatarInitial [0xD83D%N] (primaryColor' p) /\
  isWellFormed [0xD83D; 0xDE00; 83]%N = isWellFormed [83%N] /\
  isWellFormed [0xD83D%N] = false.
Proof.
  split; [reflexivity|]. split; [reflexivity|]. split; [reflexivity|].
  apply (@avatar_initial_splits_pair
           {| phoneNumber := lit "15551234567"; defaultMessage := None;
              position := None; businessName := [0xD83D; 0xDE00; 83]%N;
              businessLogo := None; primaryColor := None;
              welcomeMessage := None; inputPlaceholder := None;
              initiallyOpen := None; className := None; showTimestamp := None |}
           0xD83D%N 0xDE00%N [83%N]); reflexivity.
Defined.

(** *** The three position tables agree *)

(** For every corner the transform origin is the position name with the
    hyphen turned into a space, and the root element carries the class
    [<side>-4] for exactly the two sides the position name mentions. *)
Theorem position_tables_agree (pos : Position) :
  originPoint pos = hyphenToSpace (positionString pos) /\
  forall side, In side [lit "top"; lit "bottom"; lit "left"; lit "right"] ->
    hasClass (positionClasses pos) (side ++ lit "-4") =
    includes (positionString pos) side.
Proof.
  split; [destruct pos; reflexivity|].
  intros side Hs. cbn [In] in Hs.
  destruct Hs as [<-|[<-|[<-|[<-|[]]]]]; destruct pos; vm_compute; reflexivity.
Qed.

Lemma position_tables_agree_witness :
  In (lit "left") [lit "top"; lit "bottom"; lit "left"; lit "right"] /\
  hasClass (positionClasses TopLeft) (lit "left" ++ lit "-4") =
  includes (positionString TopLeft) (lit "left").
Proof.
  assert (H : In (lit "left") [lit "top"; lit "bottom"; lit "left"; lit "right"])
    by (cbn [In]; right; right; left; reflexivity).
  split; [exact H|].
  exact (proj2 (position_tables_agree TopLeft) (lit "left") H).
Defined.

(** *** Size and growth of the link *)

Lemma lit_length_prefix : List.length (lit "https://wa.me/") = 14.
Proof. reflexivity. Qed.

(** The link is never shorter than its fixed parts plus the number and
    the draft, and never longer than nine characters per code unit of the
    draft on top of the fixed parts. *)
Theorem buildDeepLink_length (id text url : JSString) :
  isCodeUnitString text = true ->
  buildDeepLink id text = Normal url ->
  20 + List.length id + List.length text <= List.length url /\
  List.length url <= 20 + List.length id + 9 * List.length text.
Proof.
  intros Hs H. unfold buildDeepLink in H.
  apply bind_Normal in H. destruct H as [enc [Henc E]].
  apply Normal_inj in E. subst url.
  pose proof (@Encode_length text enc Hs Henc) as L.
  rewrite !length_app.
  change (List.length (lit "https://wa.me/")) with 14.
  change (List.length (lit "?text=")) with 6. lia.
Qed.

Lemma buildDeepLink_length_witness :
  isCodeUnitString [0x20AC; 33]%N = true /\
  buildDeepLink (lit "1") [0x20AC; 33]%N = Normal (lit "https://wa.me/1?text=%E2%82%AC!") /\
  20 + List.length (lit "1") + List.length [0x20AC; 33]%N
    <= List.length (lit "https://wa.me/1?text=%E2%82%AC!") /\
  List.length (lit "https://wa.me/1?text=%E2%82%AC!")
    <= 20 + List.length (lit "1") + 9 * List.length [0x20AC; 33]%N.
Proof.
  split; [reflexivity|]. split; [reflexivity|].
  apply (@buildDeepLink_length (lit "1") [0x20AC; 33]%N
           (lit "https://wa.me/1?text=%E2%82%AC!")); reflexivity.
Defined.

(** Typing more at the end of a well-formed draft only adds to the end of
    the link: the link of [a ++ b] is the link of [a] followed by the
    encoding of [b]. *)
Theorem buildDeepLink_append (id a b urlA encB : JSString) :
  isWellFormed a = true ->
  buildDeepLink id a = Normal urlA ->
  encodeURIComponent b = Normal encB ->
  buildDeepLink id (a ++ b) = Normal (urlA ++ encB).
Proof.
  intros Hwf Ha Hb. unfold buildDeepLink, encodeURIComponent in *.
  apply bind_Normal in Ha. destruct Ha as [encA [HencA E]].
  apply Normal_inj in E. subst urlA.
  rewrite (@Encode_app_wf a b Hwf), HencA, Hb. cbn [bind].
  now rewrite <- !app_assoc.
Qed.

Lemma buildDeepLink_append_witness :
  isWellFormed (lit "Hi") = true /\
  buildDeepLink (lit "1") (lit "Hi") = Normal (lit "https://wa.me/1?text=Hi") /\
  encodeURIComponent (lit " there") = Normal (lit "%20there") /\
  buildDeepLink (lit "1") (lit "Hi" ++ lit " there") =
    Normal (lit "https://wa.me/1?text=Hi" ++ lit "%20there").
Proof.
  split; [reflexivity|]. split; [reflexivity|]. split; [reflexivity|].
  apply (@buildDeepLink_append (lit "1") (lit "Hi") (lit " there")
           (lit "https://wa.me/1?text=Hi") (lit "%20there")); reflexivity.
Defined.

(** The draft appears in the link exactly as typed if and only if it
    consists of unreserved characters only (letters, digits and
    [-_.!~*'()]). *)
Theorem buildDeepLink_verbatim_iff (id text : JSString) :
  buildDeepLink id text = Normal (lit "https://wa.me/" ++ id ++ lit "?text=" ++ text)
  <-> forallb alwaysUnescaped text = true.
Proof.
  unfold buildDeepLink, encodeURIComponent. split.
  - intros H. apply bind_Normal in H. destruct H as [enc [Henc E]].
    apply Normal_inj in E. do 3 apply app_inv_head in E. subst enc.
    now apply Encode_fixed.
  - intros H. now rewrite (Encode_unescaped _ H).
Qed.

Lemma buildDeepLink_verbatim_iff_witness :
  forallb alwaysUnescaped (lit "Hello_(world)!") = true /\
  buildDeepLink (lit "1") (lit "Hello_(world)!") =
    Normal (lit "https://wa.me/" ++ lit "1" ++ lit "?text=" ++ lit "Hello_(world)!").
Proof.
  split; [reflexivity|].
  apply (proj2 (buildDeepLink_verbatim_iff (lit "1") (lit "Hello_(world)!"))).
  reflexivity.
Defined.

(** *** The panel during its exit animation *)

(** In every reachable state of a live instance the ref is attached
    exactly when a panel element is on screen, rendered or exiting. *)
Lemma step_ref_follows_panel (w : Instance) (e : Event) :
  (attached w = true -> inputRef w = panelInDOM w) ->
  attached (step w e) = true -> inputRef (step w e) = panelInDOM (step w e).
Proof.
  destruct w as [p [o msg mt] r ts a l x]. unfold panelInDOM, panelClosure.
  cbn [attached inputRef props hooks exiting]. intros H.
  destruct e; destruct a, mt, o, r, x;
    try (specialize (H eq_refl); try discriminate H);
    cbn; intros E; first [discriminate E | reflexivity].
Qed.

Lemma reachable_ref_follows_panel (p : WhatsAppWidgetProps) (es : list Event) :
  let w := run (create p) es in
  attached w = true -> inputRef w = panelInDOM w.
Proof.
  assert (G : forall w, (attached w = true -> inputRef w = panelInDOM w) ->
                        attached (run w es) = true ->
                        inputRef (run w es) = panelInDOM (run w es)).
  { induction es as [|e es IH]; intros w H; [exact H|].
    cbn [run fold_left]. apply IH. now apply step_ref_follows_panel. }
  apply G. intros _. unfold panelInDOM, panelClosure, create.
  cbn [props hooks exiting inputRef]. rewrite panelRendered_spec. reflexivity.
Qed.

(** A click on the send button of a panel that is playing its exit
    animation still opens a link; the link is built from the draft of the
    last render that contained the panel. *)
Example exiting_send_uses_last_render :
  let w := run (create demoProps)
             [RunMountEffects; ClickFloatingButton; ChangeInput (lit "a");
              ClickClose; ChangeInput (lit "ab"); ClickSend] in
  message (hooks w) = lit "ab" /\
  filter isWindowOpen (log w) =
    [WindowOpen (lit "https://wa.me/15551234567?text=a") (lit "_blank")].
Proof. split; reflexivity. Qed.

(** Once the exit animation is over the panel's buttons are gone. *)
Example exited_panel_takes_no_input :
  let w := run (create demoProps)
             [RunMountEffects; ClickFloatingButton; ChangeInput (lit "a");
              ClickClose; ExitAnimationDone; ChangeInput (lit "ab"); ClickSend] in
  message (hooks w) = lit "a" /\ windowOpens w = 0 /\ displayedValue w = None.
Proof. repeat split. Qed.

End WidgetFacts.
